(** * The user permission store (web/core/store/user/permissions.store.ts)

    A shallow embedding of [UserPermissionStore]: the three observable
    caches, the memoised lookups, [allowPermissions] and the six asynchronous
    actions, followed by the properties the specification states about them.
    The permission check and the query filters of the all-issues layout
    ([canEditProperties] and [routerFilterParams] of AllIssueLayoutRoot) are
    embedded beside it.

    Modelling conventions.
    - A JavaScript object used as a dictionary is a [gmap string _]: its own
      properties.  A read of a key that is not an own property finds the
      member of [Object.prototype] of that name, if there is one
      ([Builtin]); what lies behind such a member (its properties, which a
      program may have written) is not modelled ([Unknown]).
    - lodash's [set] gives up on the keys [__proto__], [constructor] and
      [prototype].  Where it would write through a member of
      [Object.prototype] or create an array (an index-like second key under
      a slot that holds no object), and where [unset] would parse its string
      argument as a deep path, the action leaves the model: it completes as
      [Unmodelled] and nothing is said about the world after it.  A store
      with an array as a slice is therefore not a store of this model.
    - A key is an [identifier] when none of this applies to it: lodash
      does not refuse it, no object inherits a member of that name, it is
      not index-like and has no path syntax.  On identifiers every action
      stays within the model ([plain_history_within_model]).
    - [undefined] (and [null], which every operation here treats alike) is
      [None]; a slot of a dictionary that holds [undefined] is a present key
      whose value is [None].
    - Roles are JavaScript numbers (a numeric enum), modelled as [Z].
    - [computedFn] only memoises the function it wraps.  [runInAction] runs
      its updates as one transaction; the world records the store at the end
      of each one, which is all an observer gets to see.
    - An action is the continuation that runs once its awaited promise has
      settled: before the [await] no action touches the store, so the world
      an action is applied to is the world at settlement. *)

From Stdlib Require Import ZArith NArith Ascii.
From stdpp Require Import base option list strings gmap fin_maps.

Local Open Scope Z_scope.
Local Open Scope string_scope.

(** ** JavaScript values *)

(** [ToBoolean]: the test behind [if (x)], [!x], [x && y] and [x || y]. *)
Class Truthy (A : Type) := truthy : A → bool.
Global Hint Mode Truthy ! : typeclass_instances.

Global Instance string_truthy : Truthy string :=
  λ s, match s with EmptyString => false | String _ _ => true end.

Global Instance number_truthy : Truthy Z := λ n, negb (Z.eqb n 0).

Global Instance undefined_truthy {A} `{Truthy A} : Truthy (option A) :=
  λ o, match o with Some a => truthy a | None => false end.

(** [Array.prototype.includes] on an array of numbers. *)
Definition includes (array : list Z) (searchElement : Z) : bool :=
  existsb (Z.eqb searchElement) array.

(** [Array.prototype.includes] on an array of strings. *)
Definition includes_string (array : list string) (searchElement : string)
  : bool :=
  existsb (String.eqb searchElement) array.

(** What a property read finds. *)
Inductive reading (A : Type) :=
| Nothing                (* undefined *)
| Cached (value : A)     (* a value the program stored *)
| Builtin                (* a member of Object.prototype: a function or an
                            object of the runtime, truthy and not a number *)
| Unknown.               (* a property of such a member: not modelled *)
Arguments Nothing {A}.
Arguments Cached {A} value.
Arguments Builtin {A}.
Arguments Unknown {A}.

(** The string-keyed members of [Object.prototype] (ECMAScript, Annex B
    included). *)
Definition Object_prototype : list string :=
  ["constructor"; "hasOwnProperty"; "isPrototypeOf"; "propertyIsEnumerable";
   "toLocaleString"; "toString"; "valueOf"; "__proto__";
   "__defineGetter__"; "__defineSetter__";
   "__lookupGetter__"; "__lookupSetter__"].

(** A key that every plain object answers to without owning it. *)
Definition inherited (key : string) : bool :=
  includes_string Object_prototype key.

(** ** Types of @plane/types and of the permission constants *)

Abbreviation EUserPermissions := Z (only parsing).

(** Modelled from the spec: the enum [EUserPermissions] of
    constants/user-permissions is not among the sources.  The spec fixes the
    order GUEST < MEMBER < ADMIN of its numeric ranks; the ranks below respect
    it and no theorem depends on their values. *)
Definition ADMIN : EUserPermissions := 20.
Definition MEMBER : EUserPermissions := 15.
Definition GUEST : EUserPermissions := 5.

(** Modelled from the spec: [EUserPermissionsLevel], the level argument of
    [allowPermissions] (WORKSPACE | PROJECT). *)
Inductive EUserPermissionsLevel := WORKSPACE | PROJECT.

Global Instance EUserPermissionsLevel_eq_dec : EqDecision EUserPermissionsLevel.
Proof. solve_decision. Defined.

(** The property [role] read off a membership record. *)
Class HasRole (A : Type) := role : A → EUserPermissions.
Global Hint Mode HasRole ! : typeclass_instances.

(** Modelled from the spec: a membership record is {role, user fields}; the
    declarations of [IWorkspaceMemberMe] and [IProjectMember] are not among
    the sources. *)
Record IWorkspaceMemberMe := {
  workspace_member_id : string;
  workspace_member : string;
  workspace_member_role : EUserPermissions;
}.

Record IProjectMember := {
  project_member_id : string;
  project_member : string;
  project_member_role : EUserPermissions;
}.

Global Instance IWorkspaceMemberMe_role : HasRole IWorkspaceMemberMe :=
  workspace_member_role.
Global Instance IProjectMember_role : HasRole IProjectMember :=
  project_member_role.

(** Objects are always truthy. *)
Global Instance IWorkspaceMemberMe_truthy : Truthy IWorkspaceMemberMe := λ _, true.
Global Instance IProjectMember_truthy : Truthy IProjectMember := λ _, true.

(** [IUserProjectsRole]: projectId -> role. *)
Abbreviation IUserProjectsRole := (gmap string Z) (only parsing).

(** ** lodash [set] and [unset] on dictionaries *)

(** The keys on which [baseSet] returns without writing. *)
Definition unsafe_key (key : string) : bool :=
  includes_string ["__proto__"; "constructor"; "prototype"] key.

Definition is_digit (c : ascii) : bool :=
  (48 <=? nat_of_ascii c)%nat && (nat_of_ascii c <=? 57)%nat.

Fixpoint all_digits (s : string) : bool :=
  match s with
  | EmptyString => true
  | String c rest => is_digit c && all_digits rest
  end.

(** The number a string of digits denotes. *)
Fixpoint decimal (s : string) (value : N) : N :=
  match s with
  | EmptyString => value
  | String c rest => decimal rest (10 * value + (N_of_ascii c - 48))%N
  end.

(** [isIndex]: the key is 0 or a string of digits that does not start with
    0, and denotes a number below [Number.MAX_SAFE_INTEGER]. *)
Definition isIndex (key : string) : bool :=
  match key with
  | EmptyString => false
  | String c rest =>
      all_digits key
      && (String.eqb key "0" || negb (Ascii.eqb c "0"%char))
      && (decimal key 0 <? 9007199254740991)%N
  end.

(** A string that [castPath] may take for a deep path: it has a dot or an
    opening bracket. *)
Fixpoint has_path_syntax (s : string) : bool :=
  match s with
  | EmptyString => false
  | String c rest =>
      Ascii.eqb c "."%char || Ascii.eqb c "["%char || has_path_syntax rest
  end.

Global Arguments inherited : simpl never.
Global Arguments unsafe_key : simpl never.
Global Arguments isIndex : simpl never.
Global Arguments has_path_syntax : simpl never.

(** What lodash's [isObject] sees in a slot of the outer dictionary, and how
    a dictionary is stored into such a slot. *)
Class Slot (S V : Type) := {
  isObject : S → option (gmap string V);
  ofObject : gmap string V → S;
  isObject_ofObject nested : isObject (ofObject nested) = Some nested;
}.
Global Hint Mode Slot ! - : typeclass_instances.

(** A slot that always holds a dictionary. *)
Global Instance dictionary_slot {V} : Slot (gmap string V) V :=
  {| isObject := Some; ofObject := id; isObject_ofObject := λ _, eq_refl |}.

(** A slot that may hold [undefined]. *)
Global Instance undefined_slot {V} : Slot (option (gmap string V)) V :=
  {| isObject := id; ofObject := Some; isObject_ofObject := λ _, eq_refl |}.

(** [object?.[key1]?.[key2]], among the own properties. *)
Definition get2 {S V} `{Slot S V} (object : gmap string S)
    (key1 key2 : string) : option V :=
  nested ← object !! key1 ≫= isObject; nested !! key2.

(** [set(object, [key], value)]: assignment of an own property, also of
    [undefined], unless the key is unsafe. *)
Definition set1 {V} (object : gmap string V) (key : string) (value : V)
  : gmap string V :=
  if unsafe_key key then object else <[key := value]> object.

(** [set(object, [key1, key2], value)] where [object] has no object under
    [key1] and inherits none: a fresh object is put there, before the second
    key is looked at; for an index-like second key the fresh object is an
    array, which is not modelled. *)
Definition set2_fresh {S V} `{Slot S V} (object : gmap string S)
    (key1 key2 : string) (value : V) : option (gmap string S) :=
  if isIndex key2 then None
  else if unsafe_key key2 then Some (<[key1 := ofObject ∅]> object)
  else Some (<[key1 := ofObject {[key2 := value]}]> object).

(** [set(object, [key1, key2], value)]; [None] where the write leaves the
    model. *)
Definition set2 {S V} `{Slot S V} (object : gmap string S)
    (key1 key2 : string) (value : V) : option (gmap string S) :=
  if unsafe_key key1 then Some object
  else
    match object !! key1 with
    | Some slot =>
        match isObject slot with
        | Some nested =>
            if unsafe_key key2 then Some object
            else Some (<[key1 := ofObject (<[key2 := value]> nested)]> object)
        | None => set2_fresh object key1 key2 value
        end
    | None =>
        if inherited key1 then None else set2_fresh object key1 key2 value
    end.

(** What [set(object, [key1, key2], value)] comes to where nothing stands in
    its way: the slot is kept, or made, an object that has the value under
    the second key. *)
Definition assign2 {S V} `{Slot S V} (object : gmap string S)
    (key1 key2 : string) (value : V) : gmap string S :=
  let nested := default ∅ (object !! key1 ≫= isObject) in
  <[key1 := ofObject (<[key2 := value]> nested)]> object.

(** [unset(object, path)] with a string for [path]: the string is a key when
    it has no path syntax or is a property of the object, and is parsed as a
    deep path, which is not modelled, otherwise. *)
Definition unset1 {V} (object : gmap string V) (path : string)
  : option (gmap string V) :=
  if negb (has_path_syntax path) || bool_decide (is_Some (object !! path))
  then Some (delete path object)
  else None.

(** [unset(object, [key1, key2])]: nothing happens to the object when the
    parent is missing or [undefined]. *)
Definition unset2 {S V} `{Slot S V} (object : gmap string S)
    (key1 key2 : string) : gmap string S :=
  match object !! key1 ≫= isObject with
  | Some nested => <[key1 := ofObject (delete key2 nested)]> object
  | None => object
  end.

(** ** The store *)

Record UserPermissionStore := {
  (* workspaceSlug -> IWorkspaceMemberMe *)
  workspaceUserInfo : gmap string IWorkspaceMemberMe;
  (* workspaceSlug -> projectId -> IProjectMember *)
  projectUserInfo : gmap string (gmap string IProjectMember);
  (* workspaceSlug -> IUserProjectsRole *)
  projectPermissions : gmap string (option (gmap string Z));
}.

(** The store as constructed: three empty dictionaries. *)
Definition new_store : UserPermissionStore :=
  {| workspaceUserInfo := ∅; projectUserInfo := ∅; projectPermissions := ∅ |}.

Definition with_workspaceUserInfo
    (f : gmap string IWorkspaceMemberMe → gmap string IWorkspaceMemberMe)
    (this : UserPermissionStore) : UserPermissionStore :=
  {| workspaceUserInfo := f (workspaceUserInfo this);
     projectUserInfo := projectUserInfo this;
     projectPermissions := projectPermissions this |}.

Definition with_projectUserInfo
    (f : gmap string (gmap string IProjectMember) →
         gmap string (gmap string IProjectMember))
    (this : UserPermissionStore) : UserPermissionStore :=
  {| workspaceUserInfo := workspaceUserInfo this;
     projectUserInfo := f (projectUserInfo this);
     projectPermissions := projectPermissions this |}.

Definition with_projectPermissions
    (f : gmap string (option (gmap string Z)) →
         gmap string (option (gmap string Z)))
    (this : UserPermissionStore) : UserPermissionStore :=
  {| workspaceUserInfo := workspaceUserInfo this;
     projectUserInfo := projectUserInfo this;
     projectPermissions := f (projectPermissions this) |}.

(** The same for an update that may leave the model. *)
Definition on_workspaceUserInfo
    (f : gmap string IWorkspaceMemberMe →
         option (gmap string IWorkspaceMemberMe))
    (this : UserPermissionStore) : option UserPermissionStore :=
  cache ← f (workspaceUserInfo this);
  Some (with_workspaceUserInfo (λ _, cache) this).

Definition on_projectUserInfo
    (f : gmap string (gmap string IProjectMember) →
         option (gmap string (gmap string IProjectMember)))
    (this : UserPermissionStore) : option UserPermissionStore :=
  cache ← f (projectUserInfo this);
  Some (with_projectUserInfo (λ _, cache) this).

Definition on_projectPermissions
    (f : gmap string (option (gmap string Z)) →
         option (gmap string (option (gmap string Z))))
    (this : UserPermissionStore) : option UserPermissionStore :=
  cache ← f (projectPermissions this);
  Some (with_projectPermissions (λ _, cache) this).

(** [this.store.router]: the navigation context. *)
Record Router := {
  currentWorkspaceSlug : option string;
  currentProjectId : option string;
}.

(** ** Computed helpers *)

(** [x || undefined] *)
Definition or_undefined {A} `{Truthy A} (x : option A) : option A :=
  if truthy x then x else None.

(** [this.workspaceUserInfo[workspaceSlug] || undefined]: the record cached
    under the slug or, when there is none, the member of [Object.prototype]
    of that name. *)
Definition workspaceInfoBySlug (this : UserPermissionStore)
    (workspaceSlug : string) : reading IWorkspaceMemberMe :=
  if negb (truthy workspaceSlug) then Nothing
  else
    match workspaceUserInfo this !! workspaceSlug with
    | Some info => Cached info
    | None => if inherited workspaceSlug then Builtin else Nothing
    end.

(** [this.projectPermissions?.[workspaceSlug]?.[projectId] || undefined] *)
Definition projectPermissionsByWorkspaceSlugAndProjectId
    (this : UserPermissionStore) (workspaceSlug projectId : string)
  : reading EUserPermissions :=
  if negb (truthy workspaceSlug) || negb (truthy projectId) then Nothing
  else
    match projectPermissions this !! workspaceSlug with
    | Some (Some roles) =>
        match roles !! projectId with
        | Some r => if truthy r then Cached r else Nothing
        | None => if inherited projectId then Builtin else Nothing
        end
    | Some None => Nothing
    | None => if inherited workspaceSlug then Unknown else Nothing
    end.

(** [a && b], where the result is only ever tested for truthiness or, when
    truthy, used as [b]: a falsy [a] is collapsed to [undefined]. *)
Definition and_then {A B} `{Truthy A} (a : option A) (b : A → reading B)
  : reading B :=
  match a with
  | Some x => if truthy x then b x else Nothing
  | None => Nothing
  end.

Section Store.

(** What a rejected promise or a throwing callback carries. *)
Variable error : Type.

(** How a call ends; [Unmodelled] when it has left the model. *)
Inductive completion (A : Type) :=
| Returns (value : A)
| Throws (reason : error)
| Unmodelled.
Arguments Returns {A} value.
Arguments Throws {A} reason.
Arguments Unmodelled {A}.

Definition allowPermissions (this : UserPermissionStore) (router : Router)
    (allowPermissions : list EUserPermissions)
    (level : EUserPermissionsLevel)
    (onPermissionAllowed : option (unit → completion bool))
    (workspaceSlug projectId : option string) : completion bool :=
  let workspaceSlug :=
    if negb (truthy workspaceSlug) then currentWorkspaceSlug router
    else workspaceSlug in
  let projectId :=
    if negb (truthy projectId) then currentProjectId router else projectId in
  let currentUserRole : reading EUserPermissions := Nothing in
  let currentUserRole :=
    if decide (level = WORKSPACE) then
      let workspaceInfoBySlug :=
        and_then workspaceSlug (workspaceInfoBySlug this) in
      match workspaceInfoBySlug with
      | Cached info => Cached (role info)
      | Builtin => Nothing   (* truthy, and without a property role *)
      | Unknown => Unknown
      | Nothing => currentUserRole
      end
    else currentUserRole in
  let currentUserRole :=
    if decide (level = PROJECT) then
      and_then workspaceSlug (λ workspaceSlug,
        and_then projectId (λ projectId,
          projectPermissionsByWorkspaceSlugAndProjectId
            this workspaceSlug projectId))
    else currentUserRole in
  match currentUserRole with
  | Cached currentUserRole =>
      if truthy currentUserRole && includes allowPermissions currentUserRole
      then
        match onPermissionAllowed with
        | Some callback => callback tt
        | None => Returns true
        end
      else Returns false
  | Builtin => Returns false   (* truthy, and no number includes it *)
  | Nothing => Returns false
  | Unknown => Unmodelled
  end.

(** ** Actions *)

(** The store, what [console.error] has printed, and the store as it was at
    the end of each transaction. *)
Record World := {
  store : UserPermissionStore;
  console : list (string * error);
  transactions : list UserPermissionStore;
}.

(** An asynchronous function body: it transforms the world and either
    returns or throws. *)
Definition M (A : Type) : Type := World → World * completion A.

Global Instance M_ret : MRet M := λ A value world, (world, Returns value).

Global Instance M_bind : MBind M := λ A B k m world,
  match m world with
  | (world', Returns value) => k value world'
  | (world', Throws reason) => (world', Throws reason)
  | (world', Unmodelled) => (world', Unmodelled)
  end.

Definition throw {A} (reason : error) : M A :=
  λ world, (world, Throws reason).

(** [try { body } catch (error) { handler }]: what [body] did to the world
    before it threw stays done. *)
Definition try_catch {A} (body : M A) (handler : error → M A) : M A :=
  λ world,
    match body world with
    | (world', Returns value) => (world', Returns value)
    | (world', Throws reason) => handler reason world'
    | (world', Unmodelled) => (world', Unmodelled)
    end.

(** A settled promise. *)
Inductive settled (A : Type) :=
| Resolved (value : A)
| Rejected (reason : error).
Arguments Resolved {A} value.
Arguments Rejected {A} reason.

Definition await {A} (promise : settled A) : M A :=
  λ world,
    (world,
     match promise with
     | Resolved value => Returns value
     | Rejected reason => Throws reason
     end).

(** The world once a transaction has ended in the store [this]. *)
Definition commit (this : UserPermissionStore) (world : World) : World :=
  {| store := this;
     console := console world;
     transactions := transactions world ++ [this] |}.

(** [runInAction(() => { ... })]: the updates of the block make one
    transaction. *)
Definition runInAction
    (update : UserPermissionStore → option UserPermissionStore) : M unit :=
  λ world,
    match update (store world) with
    | Some this => (commit this world, Returns tt)
    | None => (world, Unmodelled)
    end.

Definition console_error (message : string) (reason : error) : M unit :=
  λ world,
    ({| store := store world;
        console := console world ++ [(message, reason)];
        transactions := transactions world |}, Returns tt).

(** [if (response) { then_ }] *)
Definition if_truthy {A} `{Truthy A} (response : option A) (then_ : A → M unit)
  : M unit :=
  match response with
  | Some value => if truthy value then then_ value else mret tt
  | None => mret tt
  end.

(** The remote services, as the outcome each call settles to. *)
Record Services := {
  workspaceService_workspaceMemberMe :
    string → settled (option IWorkspaceMemberMe);
  workspaceService_getWorkspaceUserProjectsRole :
    string → settled (option IUserProjectsRole);
  projectMemberService_projectMemberMe :
    string → string → settled (option IProjectMember);
  userService_leaveWorkspace : string → settled unit;
  userService_joinProject :
    string → list string → settled (option EUserPermissions);
  userService_leaveProject : string → string → settled unit;
}.

Variable services : Services.

Definition fetchUserWorkspaceInfo (workspaceSlug : string)
  : M (option IWorkspaceMemberMe) :=
  try_catch
    (response ← await (workspaceService_workspaceMemberMe services workspaceSlug);
     if_truthy response (λ response,
       runInAction (λ this,
         Some (with_workspaceUserInfo (λ workspaceUserInfo,
           set1 workspaceUserInfo workspaceSlug response) this)));;
     mret response)
    (λ error,
       console_error "Error fetching user workspace information" error;;
       throw error).

Definition leaveWorkspace (workspaceSlug : string) : M unit :=
  try_catch
    (await (userService_leaveWorkspace services workspaceSlug);;
     runInAction (λ this,
       this ← on_workspaceUserInfo (λ workspaceUserInfo,
         unset1 workspaceUserInfo workspaceSlug) this;
       this ← on_projectUserInfo (λ projectUserInfo,
         unset1 projectUserInfo workspaceSlug) this;
       on_projectPermissions (λ projectPermissions,
         unset1 projectPermissions workspaceSlug) this))
    (λ error,
       console_error "Error user leaving the workspace" error;;
       throw error).

Definition fetchUserProjectInfo (workspaceSlug projectId : string)
  : M (option IProjectMember) :=
  try_catch
    (response ← await
       (projectMemberService_projectMemberMe services workspaceSlug projectId);
     if_truthy response (λ response,
       runInAction (λ this,
         this ← on_projectUserInfo (λ projectUserInfo,
           set2 projectUserInfo workspaceSlug projectId response) this;
         on_projectPermissions (λ projectPermissions,
           set2 projectPermissions workspaceSlug projectId (role response))
           this));;
     mret response)
    (λ error,
       console_error "Error fetching user project information" error;;
       throw error).

Definition fetchUserProjectPermissions (workspaceSlug : string)
  : M (option IUserProjectsRole) :=
  try_catch
    (response ← await
       (workspaceService_getWorkspaceUserProjectsRole services workspaceSlug);
     runInAction (λ this,
       Some (with_projectPermissions (λ projectPermissions,
         set1 projectPermissions workspaceSlug response) this));;
     mret response)
    (λ error,
       console_error "Error fetching user project permissions" error;;
       throw error).

Definition joinProject (workspaceSlug projectId : string)
  : M (option EUserPermissions) :=
  try_catch
    (response ← await
       (userService_joinProject services workspaceSlug [projectId]);
     if_truthy response (λ response,
       runInAction (on_projectPermissions (λ projectPermissions,
         set2 projectPermissions workspaceSlug projectId response)));;
     mret response)
    (λ error,
       console_error "Error user joining the project" error;;
       throw error).

Definition leaveProject (workspaceSlug projectId : string) : M unit :=
  try_catch
    (await (userService_leaveProject services workspaceSlug projectId);;
     runInAction (λ this,
       Some (with_projectPermissions (λ projectPermissions,
         unset2 projectPermissions workspaceSlug projectId) this)))
    (λ error,
       console_error "Error user leaving the project" error;;
       throw error).

(** ** Histories of calls *)

Inductive call :=
| FetchUserWorkspaceInfo (workspaceSlug : string)
| LeaveWorkspace (workspaceSlug : string)
| FetchUserProjectInfo (workspaceSlug projectId : string)
| FetchUserProjectPermissions (workspaceSlug : string)
| JoinProject (workspaceSlug projectId : string)
| LeaveProject (workspaceSlug projectId : string).

(** The world after one call has run to completion. *)
Definition perform (c : call) (world : World) : World :=
  match c with
  | FetchUserWorkspaceInfo workspaceSlug =>
      (fetchUserWorkspaceInfo workspaceSlug world).1
  | LeaveWorkspace workspaceSlug =>
      (leaveWorkspace workspaceSlug world).1
  | FetchUserProjectInfo workspaceSlug projectId =>
      (fetchUserProjectInfo workspaceSlug projectId world).1
  | FetchUserProjectPermissions workspaceSlug =>
      (fetchUserProjectPermissions workspaceSlug world).1
  | JoinProject workspaceSlug projectId =>
      (joinProject workspaceSlug projectId world).1
  | LeaveProject workspaceSlug projectId =>
      (leaveProject workspaceSlug projectId world).1
  end.

End Store.

Arguments Returns {error A} value.
Arguments Throws {error A} reason.
Arguments Unmodelled {error A}.
Arguments Resolved {error A} value.
Arguments Rejected {error A} reason.
Arguments allowPermissions {error} this router allowPermissions level
  onPermissionAllowed workspaceSlug projectId.
Arguments store {error} w.
Arguments console {error} w.
Arguments transactions {error} w.
Arguments Build_World {error} store console transactions.
Arguments commit {error} this world.
Arguments fetchUserWorkspaceInfo {error} services workspaceSlug _.
Arguments leaveWorkspace {error} services workspaceSlug _.
Arguments fetchUserProjectInfo {error} services workspaceSlug projectId _.
Arguments fetchUserProjectPermissions {error} services workspaceSlug _.
Arguments joinProject {error} services workspaceSlug projectId _.
Arguments leaveProject {error} services workspaceSlug projectId _.
Arguments perform {error} services c world.
Arguments workspaceService_workspaceMemberMe {error} s _.
Arguments workspaceService_getWorkspaceUserProjectsRole {error} s _.
Arguments projectMemberService_projectMemberMe {error} s _ _.
Arguments userService_leaveWorkspace {error} s _.
Arguments userService_joinProject {error} s _ _.
Arguments userService_leaveProject {error} s _ _.

(** The session starts with empty caches and a silent console. *)
Definition new_world {error} : World error :=
  {| store := new_store; console := []; transactions := [] |}.

(** The world after a history of calls, each against the services as they
    answered at that time. *)
Definition run {error} (history : list (Services error * call))
    (world : World error) : World error :=
  foldl (λ world '(services, c), perform services c world) world history.

(** ** The data model of the specification, read off the store *)

Definition WorkspaceMembership (this : UserPermissionStore)
    (workspaceSlug : string) : option IWorkspaceMemberMe :=
  workspaceUserInfo this !! workspaceSlug.

Definition ProjectMembership (this : UserPermissionStore)
    (workspaceSlug projectId : string) : option IProjectMember :=
  get2 (projectUserInfo this) workspaceSlug projectId.

Definition ProjectRoleIndex (this : UserPermissionStore)
    (workspaceSlug projectId : string) : option EUserPermissions :=
  get2 (projectPermissions this) workspaceSlug projectId.

(** A key that is nothing but a key: lodash does not refuse it, no object
    inherits a member of that name, it is no array index and cannot be read
    as a path. *)
Definition identifier (key : string) : bool :=
  negb (unsafe_key key) && negb (inherited key)
  && negb (isIndex key) && negb (has_path_syntax key).

(** A call whose keys are identifiers. *)
Definition plain (c : call) : bool :=
  match c with
  | FetchUserWorkspaceInfo workspaceSlug
  | LeaveWorkspace workspaceSlug
  | FetchUserProjectPermissions workspaceSlug => identifier workspaceSlug
  | FetchUserProjectInfo workspaceSlug projectId
  | JoinProject workspaceSlug projectId
  | LeaveProject workspaceSlug projectId =>
      identifier workspaceSlug && identifier projectId
  end.

(** ** What a call throws, and whether it stays in the model *)

Definition thrown {error A} (result : World error * completion error A)
  : option error :=
  match result.2 with
  | Throws reason => Some reason
  | Returns _ | Unmodelled => None
  end.

Definition unmodelled {error A} (result : World error * completion error A)
  : bool :=
  match result.2 with
  | Unmodelled => true
  | Returns _ | Throws _ => false
  end.

(** The reason a call throws for, if it throws. *)
Definition failure {error} (services : Services error) (c : call)
    (world : World error) : option error :=
  match c with
  | FetchUserWorkspaceInfo workspaceSlug =>
      thrown (fetchUserWorkspaceInfo services workspaceSlug world)
  | LeaveWorkspace workspaceSlug =>
      thrown (leaveWorkspace services workspaceSlug world)
  | FetchUserProjectInfo workspaceSlug projectId =>
      thrown (fetchUserProjectInfo services workspaceSlug projectId world)
  | FetchUserProjectPermissions workspaceSlug =>
      thrown (fetchUserProjectPermissions services workspaceSlug world)
  | JoinProject workspaceSlug projectId =>
      thrown (joinProject services workspaceSlug projectId world)
  | LeaveProject workspaceSlug projectId =>
      thrown (leaveProject services workspaceSlug projectId world)
  end.

(** Whether a call leaves the model. *)
Definition escapes {error} (services : Services error) (c : call)
    (world : World error) : bool :=
  match c with
  | FetchUserWorkspaceInfo workspaceSlug =>
      unmodelled (fetchUserWorkspaceInfo services workspaceSlug world)
  | LeaveWorkspace workspaceSlug =>
      unmodelled (leaveWorkspace services workspaceSlug world)
  | FetchUserProjectInfo workspaceSlug projectId =>
      unmodelled (fetchUserProjectInfo services workspaceSlug projectId world)
  | FetchUserProjectPermissions workspaceSlug =>
      unmodelled (fetchUserProjectPermissions services workspaceSlug world)
  | JoinProject workspaceSlug projectId =>
      unmodelled (joinProject services workspaceSlug projectId world)
  | LeaveProject workspaceSlug projectId =>
      unmodelled (leaveProject services workspaceSlug projectId world)
  end.

(** A history every call of which stays in the model. *)
Fixpoint within_model {error} (history : list (Services error * call))
    (world : World error) : Prop :=
  match history with
  | [] => True
  | (services, c) :: history =>
      escapes services c world = false ∧
      within_model history (perform services c world)
  end.

(** ** The all-issues layout (AllIssueLayoutRoot) *)

(** [canEditProperties], a callback over [currentWorkspaceAllProjectsRole]
    of the membership store.  [EUserProjectRoles.MEMBER] of constants/project
    is not among the sources and is a parameter. *)
Definition canEditProperties (EUserProjectRoles_MEMBER : Z)
    (currentWorkspaceAllProjectsRole : option (gmap string Z))
    (projectId : option string) : bool :=
  if negb (truthy projectId) then false
  else
    let currentProjectRole :=
      roles ← currentWorkspaceAllProjectsRole;
      projectId ← projectId;
      roles !! projectId in
    truthy currentProjectRole
    && from_option (λ r, Z.geb r EUserProjectRoles_MEMBER) false
         currentProjectRole.

(** [readOnly] of the quick actions of an issue, whose [project_id] may be
    null. *)
Definition readOnly (EUserProjectRoles_MEMBER : Z)
    (currentWorkspaceAllProjectsRole : option (gmap string Z))
    (project_id : option string) : bool :=
  negb (canEditProperties EUserProjectRoles_MEMBER
          currentWorkspaceAllProjectsRole project_id).

(** A value of [router.query]: a string or an array of strings. *)
Inductive query_value :=
| QueryString (s : string)
| QueryArray (items : list string).

(** A string is truthy when not empty, an array always. *)
Global Instance query_value_truthy : Truthy query_value :=
  λ value, match value with
           | QueryString s => truthy s
           | QueryArray _ => true
           end.

(** [Array.prototype.join(",")] on strings. *)
Fixpoint join_comma (items : list string) : string :=
  match items with
  | [] => EmptyString
  | item :: rest =>
      match rest with
      | [] => item
      | _ :: _ => item ++ String ","%char (join_comma rest)
      end
  end.

(** [toString()] of a query value: an array is joined with commas. *)
Definition toString (value : query_value) : string :=
  match value with
  | QueryString s => s
  | QueryArray items => join_comma items
  end.

(** [String.prototype.split(",")]: the pieces between the commas, at least
    one. *)
Fixpoint split_comma (s : string) : list string :=
  match s with
  | EmptyString => [EmptyString]
  | String c rest =>
      if Ascii.eqb c ","%char then EmptyString :: split_comma rest
      else match split_comma rest with
           | piece :: pieces => String c piece :: pieces
           | [] => [String c EmptyString]
           end
  end.

(** The arguments of a call
    [updateFilters(workspaceSlug, undefined, EIssueFilterType.FILTERS,
    filters, viewId)] of the issues filter store. *)
Record updateFilters_call := {
  update_workspaceSlug : string;
  update_filters : gmap string (list string);
  update_viewId : string;
}.

(** The body of the [forEach] over the keys of [routeFilters]: a key among
    [filters], not empty and with a non-empty value, is added to
    [issueFilters] with its value split at the commas. *)
Definition collect_filter (filters : list string) (key : string)
    (value : option query_value) (issueFilters : gmap string (list string))
  : gmap string (list string) :=
  let filterKey := key in
  let filterValue := or_undefined (toString <$> value) in
  match filterValue with
  | Some text =>
      if includes_string filters filterKey && truthy filterKey
      then <[filterKey := split_comma text]> issueFilters
      else issueFilters
  | None => issueFilters
  end.

(** A string with a comma in it. *)
Fixpoint has_comma (s : string) : bool :=
  match s with
  | EmptyString => false
  | String c rest => Ascii.eqb c ","%char || has_comma rest
  end.

(** [routerFilterParams]: the filters of the query string are handed to
    [updateFilters]; the result is the call it makes, if it makes one.  The
    list [ISSUE_DISPLAY_FILTERS_BY_LAYOUT.my_issues.spreadsheet.filters] of
    constants/issue is not among the sources and is a parameter, [filters].
    [routeFilters] is the query without workspaceSlug and globalViewId.  The
    [forEach] visits every key once and writes only under that key, so the
    order of the keys has no bearing on [issueFilters]. *)
Definition routerFilterParams (filters : list string)
    (workspaceSlug globalViewId : option query_value)
    (routeFilters : gmap string (option query_value))
  : option updateFilters_call :=
  match workspaceSlug, globalViewId with
  | Some workspaceSlug, Some globalViewId =>
      if truthy workspaceSlug && truthy globalViewId
         && includes_string ["all-issues"; "assigned"; "created"; "subscribed"]
              (toString globalViewId)
      then
        let issueFilters :=
          map_fold (collect_filter filters) ∅ routeFilters in
        if negb (Nat.eqb (size routeFilters) 0) then
          Some {| update_workspaceSlug := toString workspaceSlug;
                  update_filters := issueFilters;
                  update_viewId := toString globalViewId |}
        else None
      else None
  | _, _ => None
  end.

(** ** A session used in the examples *)

Module Fixture.

Definition alice_in_ws1 : IWorkspaceMemberMe :=
  {| workspace_member_id := "wm-1"; workspace_member := "alice";
     workspace_member_role := ADMIN |}.

Definition alice_in_p1 : IProjectMember :=
  {| project_member_id := "pm-1"; project_member := "alice";
     project_member_role := MEMBER |}.

(** A record whose role is the number 0. *)
Definition nobody_in_ws1 : IWorkspaceMemberMe :=
  {| workspace_member_id := "wm-0"; workspace_member := "nobody";
     workspace_member_role := 0 |}.

(** ws1 is cached at every level; p3 only in the role index. *)
Definition cached : UserPermissionStore :=
  {| workspaceUserInfo := {[ "ws1" := alice_in_ws1 ]};
     projectUserInfo := {[ "ws1" := {[ "p1" := alice_in_p1 ]} ]};
     projectPermissions :=
       {[ "ws1" := Some (<[ "p3" := GUEST ]> {[ "p1" := MEMBER ]}) ]} |}.

Definition session : World string :=
  {| store := cached; console := []; transactions := [] |}.

(** Roles of value 0 are cached for ws1 and for its project p1. *)
Definition zero_roles : UserPermissionStore :=
  {| workspaceUserInfo := {[ "ws1" := nobody_in_ws1 ]};
     projectUserInfo := ∅;
     projectPermissions := {[ "ws1" := Some {[ "p1" := 0 ]} ]} |}.

(** The navigation context while ws1/p1 is open, and with nothing open. *)
Definition at_ws1_p1 : Router :=
  {| currentWorkspaceSlug := Some "ws1"; currentProjectId := Some "p1" |}.

Definition nowhere : Router :=
  {| currentWorkspaceSlug := None; currentProjectId := None |}.

(** Every remote call is rejected. *)
Definition offline : Services string :=
  {| workspaceService_workspaceMemberMe := λ _, Rejected "503";
     workspaceService_getWorkspaceUserProjectsRole := λ _, Rejected "503";
     projectMemberService_projectMemberMe := λ _ _, Rejected "503";
     userService_leaveWorkspace := λ _, Rejected "503";
     userService_joinProject := λ _ _, Rejected "503";
     userService_leaveProject := λ _ _, Rejected "503" |}.

(** The role mapping {p1: MEMBER, p2: ADMIN}. *)
Definition two_roles : gmap string Z := <[ "p2" := ADMIN ]> {[ "p1" := MEMBER ]}.

(** Every remote call resolves; the bulk role mapping is {p1, p2}. *)
Definition online : Services string :=
  {| workspaceService_workspaceMemberMe := λ _, Resolved (Some alice_in_ws1);
     workspaceService_getWorkspaceUserProjectsRole := λ _,
       Resolved (Some two_roles);
     projectMemberService_projectMemberMe := λ _ _,
       Resolved (Some alice_in_p1);
     userService_leaveWorkspace := λ _, Resolved tt;
     userService_joinProject := λ _ _, Resolved (Some MEMBER);
     userService_leaveProject := λ _ _, Resolved tt |}.

(** Every remote call resolves, with roles of value 0. *)
Definition demoted : Services string :=
  {| workspaceService_workspaceMemberMe := λ _, Resolved (Some nobody_in_ws1);
     workspaceService_getWorkspaceUserProjectsRole := λ _,
       Resolved (Some {[ "p1" := 0 ]});
     projectMemberService_projectMemberMe := λ _ _,
       Resolved (Some alice_in_p1);
     userService_leaveWorkspace := λ _, Resolved tt;
     userService_joinProject := λ _ _, Resolved (Some 0);
     userService_leaveProject := λ _ _, Resolved tt |}.

(** Every remote call resolves, the fetches to [undefined]. *)
Definition hollow : Services string :=
  {| workspaceService_workspaceMemberMe := λ _, Resolved None;
     workspaceService_getWorkspaceUserProjectsRole := λ _, Resolved None;
     projectMemberService_projectMemberMe := λ _ _, Resolved None;
     userService_leaveWorkspace := λ _, Resolved tt;
     userService_joinProject := λ _ _, Resolved None;
     userService_leaveProject := λ _ _, Resolved tt |}.

End Fixture.

(** ** A query used in the examples *)

Module Scenario.

(** The filters the spreadsheet layout accepts. *)
Definition filters : list string := ["priority"; "state"; "labels"].

(** ?priority=urgent,high&labels=bug&labels=ui&state=&page=2 *)
Definition routeFilters : gmap string (option query_value) :=
  <[ "priority" := Some (QueryString "urgent,high") ]>
  (<[ "labels" := Some (QueryArray ["bug"; "ui"]) ]>
  (<[ "state" := Some (QueryString EmptyString) ]>
  {[ "page" := Some (QueryString "2") ]})).

Definition workspaceSlug : option query_value := Some (QueryString "ws1").

Definition globalViewId : option query_value := Some (QueryString "assigned").

(** The roles of the current workspace, by project. *)
Definition roles : gmap string Z :=
  <[ "p1" := MEMBER ]> (<[ "p2" := GUEST ]> {[ "p3" := 0 ]}).

End Scenario.


(** * Properties *)

(** ** Truthiness and keys *)

Lemma truthy_string (s : string) : truthy s = true ↔ s ≠ "".
Proof. destruct s; cbn; split; intros; congruence. Qed.

Lemma truthy_number (n : Z) : truthy n = true ↔ n ≠ 0.
Proof.
  unfold truthy, number_truthy. rewrite negb_true_iff. apply Z.eqb_neq.
Qed.

Lemma falsy_number (n : Z) : truthy n = false ↔ n = 0.
Proof.
  unfold truthy, number_truthy. rewrite negb_false_iff. apply Z.eqb_eq.
Qed.

Lemma includes_elem_of (array : list Z) (x : Z) :
  includes array x = true ↔ x ∈ array.
Proof.
  unfold includes. rewrite existsb_exists. split.
  - intros (y & Hy & Heq). apply Z.eqb_eq in Heq. subst y.
    by apply list_elem_of_In.
  - intros Hx. exists x. split; [by apply list_elem_of_In | apply Z.eqb_refl].
Qed.

Lemma includes_string_elem_of (array : list string) (x : string) :
  includes_string array x = true ↔ x ∈ array.
Proof.
  unfold includes_string. rewrite existsb_exists. split.
  - intros (y & Hy & Heq). apply String.eqb_eq in Heq. subst y.
    by apply list_elem_of_In.
  - intros Hx. exists x. split; [by apply list_elem_of_In|].
    apply String.eqb_refl.
Qed.

(** What being an identifier rules out. *)
Lemma identifier_spec (key : string) :
  identifier key = true ↔
  unsafe_key key = false ∧ inherited key = false ∧
  isIndex key = false ∧ has_path_syntax key = false.
Proof.
  unfold identifier. rewrite !andb_true_iff, !negb_true_iff. tauto.
Qed.

(** ** lodash paths *)

Section Paths.
Context {S V : Type} `{Slot S V}.
Implicit Types object : gmap string S.

Lemma get2_assign2 object (key1 key2 : string) (value : V) (k1 k2 : string) :
  get2 (assign2 object key1 key2 value) k1 k2 =
  if decide (key1 = k1 ∧ key2 = k2) then Some value else get2 object k1 k2.
Proof.
  unfold get2, assign2. destruct (decide (key1 = k1)) as [->|Hne1].
  - rewrite lookup_insert_eq. cbn. rewrite isObject_ofObject. cbn.
    destruct (decide (key2 = k2)) as [->|Hne2].
    + rewrite lookup_insert_eq. by rewrite decide_True.
    + rewrite lookup_insert_ne by done. rewrite decide_False by tauto.
      by destruct (object !! k1 ≫= isObject).
  - rewrite lookup_insert_ne by done. by rewrite decide_False by tauto.
Qed.

(** On identifiers [set] is a plain assignment. *)
Lemma set2_identifier object (key1 key2 : string) (value : V) :
  identifier key1 = true → identifier key2 = true →
  set2 object key1 key2 value = Some (assign2 object key1 key2 value).
Proof.
  intros (Hsafe1 & Hown1 & _ & _)%identifier_spec
         (Hsafe2 & _ & Hindex2 & _)%identifier_spec.
  unfold set2, set2_fresh, assign2. rewrite Hsafe1, Hsafe2, Hown1, Hindex2.
  destruct (object !! key1) as [slot|]; cbn.
  - destruct (isObject slot); cbn; [done|]. by rewrite insert_empty.
  - by rewrite insert_empty.
Qed.

(** A second [set] of the same path replaces the first, and leaves the
    model exactly when the first does. *)
Lemma set2_set2 object (key1 key2 : string) (value value' : V) :
  match set2 object key1 key2 value with
  | Some object' =>
      set2 object' key1 key2 value' = set2 object key1 key2 value'
  | None => set2 object key1 key2 value' = None
  end.
Proof.
  unfold set2, set2_fresh.
  destruct (unsafe_key key1); [done|].
  destruct (object !! key1) as [slot|] eqn:Hslot.
  - destruct (isObject slot) as [nested|] eqn:Hnested.
    + destruct (unsafe_key key2).
      * by rewrite Hslot, Hnested.
      * rewrite lookup_insert_eq, isObject_ofObject.
        by rewrite !insert_insert_eq.
    + destruct (isIndex key2); [done|].
      destruct (unsafe_key key2).
      * by rewrite lookup_insert_eq, isObject_ofObject.
      * rewrite lookup_insert_eq, isObject_ofObject.
        by rewrite insert_insert_eq, insert_singleton_eq.
  - destruct (inherited key1); [done|].
    destruct (isIndex key2); [done|].
    destruct (unsafe_key key2).
    + by rewrite lookup_insert_eq, isObject_ofObject.
    + rewrite lookup_insert_eq, isObject_ofObject.
      by rewrite insert_insert_eq, insert_singleton_eq.
Qed.

Lemma get2_unset2 object (key1 key2 k1 k2 : string) :
  get2 (unset2 object key1 key2) k1 k2 =
  if decide (key1 = k1 ∧ key2 = k2) then None else get2 object k1 k2.
Proof.
  unfold get2, unset2.
  destruct (object !! key1 ≫= isObject) as [nested|] eqn:Hparent.
  - destruct (decide (key1 = k1)) as [->|Hne1].
    + rewrite lookup_insert_eq. cbn. rewrite isObject_ofObject. cbn.
      rewrite Hparent. cbn. destruct (decide (key2 = k2)) as [->|Hne2].
      * rewrite lookup_delete_eq. by rewrite decide_True.
      * rewrite lookup_delete_ne by done. by rewrite decide_False by tauto.
    + rewrite lookup_insert_ne by done. by rewrite decide_False by tauto.
  - case_decide as Hk; [|done]. destruct Hk as [<- <-]. by rewrite Hparent.
Qed.


Lemma unset2_unset2 object (key1 key2 : string) :
  unset2 (unset2 object key1 key2) key1 key2 = unset2 object key1 key2.
Proof.
  unfold unset2 at 2 3.
  destruct (object !! key1 ≫= isObject) as [nested|] eqn:Hparent.
  - unfold unset2. rewrite lookup_insert_eq. cbn. rewrite isObject_ofObject.
    by rewrite delete_delete_eq, insert_insert_eq.
  - unfold unset2. by rewrite Hparent.
Qed.

End Paths.

(** Where nothing is stored, [unset] changes nothing. *)
Lemma unset2_absent {V} (object : gmap string (option (gmap string V)))
    (key1 key2 : string) :
  get2 object key1 key2 = None → unset2 object key1 key2 = object.
Proof.
  unfold get2, unset2. cbn.
  destruct (object !! key1) as [[nested|]|] eqn:Hslot; cbn; [|done..].
  intros Hkey. rewrite delete_id by done. by apply insert_id.
Qed.


Lemma set1_set1 {V} (object : gmap string V) (key : string) (value value' : V) :
  set1 (set1 object key value) key value' = set1 object key value'.
Proof.
  unfold set1. destruct (unsafe_key key); [done|]. apply insert_insert_eq.
Qed.

Lemma unset1_plain {V} (object : gmap string V) (path : string) :
  has_path_syntax path = false → unset1 object path = Some (delete path object).
Proof. unfold unset1. by intros ->. Qed.

(** ** The computed helpers *)



Lemma projectPermissions_lookup this workspaceSlug projectId :
  workspaceSlug ≠ "" → projectId ≠ "" →
  inherited workspaceSlug = false → inherited projectId = false →
  projectPermissionsByWorkspaceSlugAndProjectId this workspaceSlug projectId =
  match ProjectRoleIndex this workspaceSlug projectId with
  | Some r => if decide (r = 0) then Nothing else Cached r
  | None => Nothing
  end.
Proof.
  intros Hws%truthy_string Hpid%truthy_string Hown1 Hown2.
  unfold projectPermissionsByWorkspaceSlugAndProjectId, ProjectRoleIndex, get2.
  rewrite Hws, Hpid, Hown1. cbn.
  destruct (projectPermissions this !! workspaceSlug) as [[roles|]|];
    cbn; [|done..].
  destruct (roles !! projectId) as [r|]; [|by rewrite Hown2].
  case_decide as Hr.
  - apply falsy_number in Hr. by rewrite Hr.
  - apply truthy_number in Hr. by rewrite Hr.
Qed.

Lemma projectPermissions_cached this workspaceSlug projectId r :
  workspaceSlug ≠ "" → projectId ≠ "" →
  ProjectRoleIndex this workspaceSlug projectId = Some r →
  projectPermissionsByWorkspaceSlugAndProjectId this workspaceSlug projectId =
  if decide (r = 0) then Nothing else Cached r.
Proof.
  intros Hws%truthy_string Hpid%truthy_string.
  unfold projectPermissionsByWorkspaceSlugAndProjectId, ProjectRoleIndex, get2.
  rewrite Hws, Hpid. cbn.
  destruct (projectPermissions this !! workspaceSlug) as [[roles|]|];
    cbn; [|done..].
  intros ->. case_decide as Hr.
  - apply falsy_number in Hr. by rewrite Hr.
  - apply truthy_number in Hr. by rewrite Hr.
Qed.

(** ** [allowPermissions], case by case *)

Section AllowPermissions.
Context {error : Type}.
Implicit Types (this : UserPermissionStore) (router : Router).
Implicit Types (allowed : list Z) (workspaceSlug projectId : string).
Implicit Types onPermissionAllowed : option (unit → completion error bool).

Lemma allowPermissions_workspace this router allowed onPermissionAllowed
    workspaceSlug (projectId : option string) :
  workspaceSlug ≠ "" →
  allowPermissions this router allowed WORKSPACE onPermissionAllowed
    (Some workspaceSlug) projectId =
  match WorkspaceMembership this workspaceSlug with
  | Some info =>
      if truthy (role info) && includes allowed (role info)
      then match onPermissionAllowed with
           | Some callback => callback tt
           | None => Returns true
           end
      else Returns false
  | None => Returns false
  end.
Proof.
  intros Hws. destruct workspaceSlug as [|c s]; [done|].
  unfold allowPermissions. cbn [truthy undefined_truthy string_truthy negb].
  rewrite !(decide_False (P := WORKSPACE = PROJECT)) by done.
  rewrite !(decide_True (P := WORKSPACE = WORKSPACE)) by done.
  unfold and_then, workspaceInfoBySlug, WorkspaceMembership.
  cbn [truthy string_truthy negb].
  destruct (workspaceUserInfo this !! String c s) as [info|]; [done|].
  by destruct (inherited (String c s)).
Qed.

(** At PROJECT level the answer is read off the role lookup of the slug and
    project id passed, when both are non-empty. *)
Lemma allowPermissions_project_read this router allowed onPermissionAllowed
    workspaceSlug projectId :
  workspaceSlug ≠ "" → projectId ≠ "" →
  allowPermissions this router allowed PROJECT onPermissionAllowed
    (Some workspaceSlug) (Some projectId) =
  match projectPermissionsByWorkspaceSlugAndProjectId
          this workspaceSlug projectId with
  | Cached r =>
      if truthy r && includes allowed r
      then match onPermissionAllowed with
           | Some callback => callback tt
           | None => Returns true
           end
      else Returns false
  | Builtin | Nothing => Returns false
  | Unknown => Unmodelled
  end.
Proof.
  intros Hws Hpid.
  destruct workspaceSlug as [|c s]; [done|].
  destruct projectId as [|c' s']; [done|].
  unfold allowPermissions. cbn [truthy undefined_truthy string_truthy negb].
  rewrite !(decide_True (P := PROJECT = PROJECT)) by done.
  unfold and_then. cbn [truthy string_truthy].
  by destruct (projectPermissionsByWorkspaceSlugAndProjectId _ _ _).
Qed.

Lemma allowPermissions_project_cached this router allowed onPermissionAllowed
    workspaceSlug projectId r :
  workspaceSlug ≠ "" → projectId ≠ "" →
  ProjectRoleIndex this workspaceSlug projectId = Some r →
  allowPermissions this router allowed PROJECT onPermissionAllowed
    (Some workspaceSlug) (Some projectId) =
  if truthy r && includes allowed r
  then match onPermissionAllowed with
       | Some callback => callback tt
       | None => Returns true
       end
  else Returns false.
Proof.
  intros Hws Hpid Hr. rewrite allowPermissions_project_read by done.
  rewrite (projectPermissions_cached this _ _ r) by done.
  case_decide as Hzero; [by subst r|].
  by apply truthy_number in Hzero as ->.
Qed.

Lemma allowPermissions_project_absent this router allowed onPermissionAllowed
    workspaceSlug projectId :
  workspaceSlug ≠ "" → projectId ≠ "" →
  inherited workspaceSlug = false →
  ProjectRoleIndex this workspaceSlug projectId = None →
  allowPermissions this router allowed PROJECT onPermissionAllowed
    (Some workspaceSlug) (Some projectId) = Returns false.
Proof.
  intros Hws Hpid Hown Hnone. rewrite allowPermissions_project_read by done.
  apply truthy_string in Hws, Hpid.
  unfold projectPermissionsByWorkspaceSlugAndProjectId.
  unfold ProjectRoleIndex, get2 in Hnone. rewrite Hws, Hpid, Hown. cbn.
  destruct (projectPermissions this !! workspaceSlug) as [[roles|]|];
    cbn in *; [|done..].
  rewrite Hnone. by destruct (inherited projectId).
Qed.

(** At PROJECT level, a workspace without a slice of roles allows nothing,
    whatever the project id, passed or current. *)
Lemma allowPermissions_project_no_slice this router allowed
    onPermissionAllowed workspaceSlug (pid : option string) :
  workspaceSlug ≠ "" → inherited workspaceSlug = false →
  (∀ roles, projectPermissions this !! workspaceSlug ≠ Some (Some roles)) →
  allowPermissions this router allowed PROJECT onPermissionAllowed
    (Some workspaceSlug) pid = Returns false.
Proof.
  intros Hws Hown Hslice.
  assert (∀ projectId,
            projectPermissionsByWorkspaceSlugAndProjectId
              this workspaceSlug projectId = Nothing) as Hread.
  { intros projectId.
    unfold projectPermissionsByWorkspaceSlugAndProjectId.
    destruct (_ || _); [done|].
    destruct (projectPermissions this !! workspaceSlug) as [[roles|]|];
      [by destruct (Hslice roles) | done | by rewrite Hown]. }
  destruct workspaceSlug as [|c s]; [done|].
  unfold allowPermissions. cbn [truthy undefined_truthy string_truthy negb].
  rewrite !(decide_True (P := PROJECT = PROJECT)) by done.
  unfold and_then at 1. cbn [truthy string_truthy].
  assert (∀ o : option string,
            and_then o (λ projectId0 : string,
              projectPermissionsByWorkspaceSlugAndProjectId
                this (String c s) projectId0) = Nothing) as Hrole.
  { intros [p|]; [|done]. cbn. destruct (truthy p); [apply Hread | done]. }
  by rewrite !Hrole.
Qed.

(** With no truthy workspace slug, passed or current, nothing is allowed. *)
Lemma allowPermissions_no_workspace this router allowed level
    onPermissionAllowed (workspaceSlug projectId : option string) :
  truthy workspaceSlug = false →
  truthy (currentWorkspaceSlug router) = false →
  allowPermissions this router allowed level onPermissionAllowed
    workspaceSlug projectId = Returns false.
Proof.
  intros Hws Hcur. unfold allowPermissions. rewrite Hws. cbn [negb].
  assert (∀ B (b : string → reading B),
            and_then (currentWorkspaceSlug router) b = Nothing) as Hnone.
  { intros B b. unfold and_then.
    destruct (currentWorkspaceSlug router) as [s|]; [|done].
    cbn in Hcur. by rewrite Hcur. }
  rewrite !Hnone. by repeat case_decide.
Qed.

(** With no truthy project id, passed or current, no project role is found. *)
Lemma allowPermissions_no_project this router allowed onPermissionAllowed
    (workspaceSlug projectId : option string) :
  truthy projectId = false →
  truthy (currentProjectId router) = false →
  allowPermissions this router allowed PROJECT onPermissionAllowed
    workspaceSlug projectId = Returns false.
Proof.
  intros Hpid Hcur. unfold allowPermissions. rewrite Hpid. cbn [negb].
  assert (∀ B (b : string → reading B),
            and_then (currentProjectId router) b = Nothing) as Hnone.
  { intros B b. unfold and_then.
    destruct (currentProjectId router) as [s|]; [|done].
    cbn in Hcur. by rewrite Hcur. }
  assert (∀ (a : option string),
            and_then a (λ workspaceSlug0 : string,
              and_then (currentProjectId router) (λ projectId0 : string,
                projectPermissionsByWorkspaceSlugAndProjectId
                  this workspaceSlug0 projectId0)) = Nothing) as Hrole.
  { intros [s|]; [|done]. cbn. destruct (truthy s); [apply Hnone | done]. }
  rewrite !(decide_True (P := PROJECT = PROJECT)) by done. by rewrite Hrole.
Qed.

End AllowPermissions.

(** ** The actions, by the outcome of their remote call *)

Section Actions.
Context {error : Type}.
Implicit Types (services : Services error) (world : World error).
Implicit Types (workspaceSlug projectId : string) (reason : error).

Lemma fetchUserWorkspaceInfo_settled services workspaceSlug world :
  fetchUserWorkspaceInfo services workspaceSlug world =
  match workspaceService_workspaceMemberMe services workspaceSlug with
  | Resolved (Some response) =>
      (commit (with_workspaceUserInfo
                 (λ cache, set1 cache workspaceSlug response) (store world))
         world, Returns (Some response))
  | Resolved None => (world, Returns None)
  | Rejected reason =>
      ({| store := store world;
          console := console world ++
            [("Error fetching user workspace information", reason)];
          transactions := transactions world |},
       Throws reason)
  end.
Proof.
  unfold fetchUserWorkspaceInfo, try_catch, mbind, M_bind, await.
  by destruct (workspaceService_workspaceMemberMe _ _) as [[response|]|reason].
Qed.

Lemma leaveWorkspace_settled services workspaceSlug world :
  leaveWorkspace services workspaceSlug world =
  match userService_leaveWorkspace services workspaceSlug with
  | Resolved _ =>
      match unset1 (workspaceUserInfo (store world)) workspaceSlug,
            unset1 (projectUserInfo (store world)) workspaceSlug,
            unset1 (projectPermissions (store world)) workspaceSlug with
      | Some members, Some projects, Some roles =>
          (commit {| workspaceUserInfo := members;
                     projectUserInfo := projects;
                     projectPermissions := roles |} world, Returns tt)
      | _, _, _ => (world, Unmodelled)
      end
  | Rejected reason =>
      ({| store := store world;
          console := console world ++
            [("Error user leaving the workspace", reason)];
          transactions := transactions world |},
       Throws reason)
  end.
Proof.
  unfold leaveWorkspace, try_catch, mbind, M_bind, await, runInAction.
  destruct (userService_leaveWorkspace _ _) as [[]|reason]; [|done].
  unfold on_workspaceUserInfo, on_projectUserInfo, on_projectPermissions.
  destruct (unset1 (workspaceUserInfo (store world)) workspaceSlug); cbn;
    [|done].
  destruct (unset1 (projectUserInfo (store world)) workspaceSlug); cbn;
    [|done].
  by destruct (unset1 (projectPermissions (store world)) workspaceSlug).
Qed.

(** For a slug without path syntax the three [unset] are three deletions. *)
Lemma leaveWorkspace_plain services workspaceSlug world :
  has_path_syntax workspaceSlug = false →
  leaveWorkspace services workspaceSlug world =
  match userService_leaveWorkspace services workspaceSlug with
  | Resolved _ =>
      (commit
         {| workspaceUserInfo :=
              delete workspaceSlug (workspaceUserInfo (store world));
            projectUserInfo :=
              delete workspaceSlug (projectUserInfo (store world));
            projectPermissions :=
              delete workspaceSlug (projectPermissions (store world)) |}
         world, Returns tt)
  | Rejected reason =>
      ({| store := store world;
          console := console world ++
            [("Error user leaving the workspace", reason)];
          transactions := transactions world |},
       Throws reason)
  end.
Proof.
  intros Hplain. rewrite leaveWorkspace_settled.
  by rewrite !unset1_plain by done.
Qed.

Lemma fetchUserProjectInfo_settled services workspaceSlug projectId world :
  fetchUserProjectInfo services workspaceSlug projectId world =
  match projectMemberService_projectMemberMe services workspaceSlug projectId
  with
  | Resolved (Some response) =>
      match set2 (projectUserInfo (store world))
              workspaceSlug projectId response,
            set2 (projectPermissions (store world))
              workspaceSlug projectId (role response) with
      | Some projects, Some roles =>
          (commit {| workspaceUserInfo := workspaceUserInfo (store world);
                     projectUserInfo := projects;
                     projectPermissions := roles |} world,
           Returns (Some response))
      | _, _ => (world, Unmodelled)
      end
  | Resolved None => (world, Returns None)
  | Rejected reason =>
      ({| store := store world;
          console := console world ++
            [("Error fetching user project information", reason)];
          transactions := transactions world |},
       Throws reason)
  end.
Proof.
  unfold fetchUserProjectInfo, try_catch, mbind, M_bind, await, runInAction.
  destruct (projectMemberService_projectMemberMe _ _ _)
    as [[response|]|reason]; [|done..].
  cbn. unfold on_projectUserInfo, on_projectPermissions.
  destruct (set2 (projectUserInfo (store world)) _ _ _); cbn; [|done].
  by destruct (set2 (projectPermissions (store world)) _ _ _).
Qed.

(** For identifiers the two [set] are two assignments. *)
Lemma fetchUserProjectInfo_plain services workspaceSlug projectId world :
  identifier workspaceSlug = true → identifier projectId = true →
  fetchUserProjectInfo services workspaceSlug projectId world =
  match projectMemberService_projectMemberMe services workspaceSlug projectId
  with
  | Resolved (Some response) =>
      (commit
         {| workspaceUserInfo := workspaceUserInfo (store world);
            projectUserInfo :=
              assign2 (projectUserInfo (store world))
                workspaceSlug projectId response;
            projectPermissions :=
              assign2 (projectPermissions (store world))
                workspaceSlug projectId (role response) |}
         world, Returns (Some response))
  | Resolved None => (world, Returns None)
  | Rejected reason =>
      ({| store := store world;
          console := console world ++
            [("Error fetching user project information", reason)];
          transactions := transactions world |},
       Throws reason)
  end.
Proof.
  intros Hws Hpid. rewrite fetchUserProjectInfo_settled.
  destruct (projectMemberService_projectMemberMe _ _ _)
    as [[response|]|reason]; [|done..].
  by rewrite !set2_identifier by done.
Qed.

Lemma fetchUserProjectPermissions_settled services workspaceSlug world :
  fetchUserProjectPermissions services workspaceSlug world =
  match workspaceService_getWorkspaceUserProjectsRole services workspaceSlug
  with
  | Resolved response =>
      (commit (with_projectPermissions
                 (λ cache, set1 cache workspaceSlug response) (store world))
         world, Returns response)
  | Rejected reason =>
      ({| store := store world;
          console := console world ++
            [("Error fetching user project permissions", reason)];
          transactions := transactions world |},
       Throws reason)
  end.
Proof.
  unfold fetchUserProjectPermissions, try_catch, mbind, M_bind, await.
  by destruct (workspaceService_getWorkspaceUserProjectsRole _ _)
    as [response|reason].
Qed.

Lemma joinProject_settled services workspaceSlug projectId world :
  joinProject services workspaceSlug projectId world =
  match userService_joinProject services workspaceSlug [projectId] with
  | Resolved response =>
      if truthy response then
        match set2 (projectPermissions (store world))
                workspaceSlug projectId (default 0 response) with
        | Some roles =>
            (commit (with_projectPermissions (λ _, roles) (store world))
               world, Returns response)
        | None => (world, Unmodelled)
        end
      else (world, Returns response)
  | Rejected reason =>
      ({| store := store world;
          console := console world ++
            [("Error user joining the project", reason)];
          transactions := transactions world |},
       Throws reason)
  end.
Proof.
  unfold joinProject, try_catch, mbind, M_bind, await, runInAction.
  destruct (userService_joinProject _ _ _) as [[response|]|reason];
    [|done..].
  cbn. destruct (truthy response); [|done].
  unfold on_projectPermissions.
  by destruct (set2 (projectPermissions (store world)) _ _ _).
Qed.

Lemma leaveProject_settled services workspaceSlug projectId world :
  leaveProject services workspaceSlug projectId world =
  match userService_leaveProject services workspaceSlug projectId with
  | Resolved _ =>
      (commit (with_projectPermissions
                 (λ cache, unset2 cache workspaceSlug projectId)
                 (store world))
         world, Returns tt)
  | Rejected reason =>
      ({| store := store world;
          console := console world ++
            [("Error user leaving the project", reason)];
          transactions := transactions world |},
       Throws reason)
  end.
Proof.
  unfold leaveProject, try_catch, mbind, M_bind, await.
  by destruct (userService_leaveProject _ _ _) as [[]|reason].
Qed.

End Actions.

(** ** What the specification claims about the actions *)

Section ActionClaims.
Context {error : Type}.
Implicit Types (services : Services error) (world : World error).
Implicit Types (workspaceSlug projectId : string) (reason : error).

(** A rejected remote call is also written to the console. *)
Lemma fetchUserProjectInfo_failure_logged services workspaceSlug projectId
    world reason :
  projectMemberService_projectMemberMe services workspaceSlug projectId =
    Rejected reason →
  console (fetchUserProjectInfo services workspaceSlug projectId world).1 =
  (console world ++
     [("Error fetching user project information", reason)])%list.
Proof. intros Hcall. by rewrite fetchUserProjectInfo_settled, Hcall. Qed.

(** C2. Each of the six actions is atomic with respect to failure: when its
    remote call is rejected, the store (all three caches) is what it was
    before the call, and the call throws the very reason of the rejection. *)
Theorem actions_failure_atomic services world reason :
  (∀ workspaceSlug,
     workspaceService_workspaceMemberMe services workspaceSlug =
       Rejected reason →
     store (fetchUserWorkspaceInfo services workspaceSlug world).1 =
       store world ∧
     (fetchUserWorkspaceInfo services workspaceSlug world).2 = Throws reason) ∧
  (∀ workspaceSlug,
     userService_leaveWorkspace services workspaceSlug = Rejected reason →
     store (leaveWorkspace services workspaceSlug world).1 = store world ∧
     (leaveWorkspace services workspaceSlug world).2 = Throws reason) ∧
  (∀ workspaceSlug projectId,
     projectMemberService_projectMemberMe services workspaceSlug projectId =
       Rejected reason →
     store (fetchUserProjectInfo services workspaceSlug projectId world).1 =
       store world ∧
     (fetchUserProjectInfo services workspaceSlug projectId world).2 =
       Throws reason) ∧
  (∀ workspaceSlug,
     workspaceService_getWorkspaceUserProjectsRole services workspaceSlug =
       Rejected reason →
     store (fetchUserProjectPermissions services workspaceSlug world).1 =
       store world ∧
     (fetchUserProjectPermissions services workspaceSlug world).2 =
       Throws reason) ∧
  (∀ workspaceSlug projectId,
     userService_joinProject services workspaceSlug [projectId] =
       Rejected reason →
     store (joinProject services workspaceSlug projectId world).1 =
       store world ∧
     (joinProject services workspaceSlug projectId world).2 = Throws reason) ∧
  (∀ workspaceSlug projectId,
     userService_leaveProject services workspaceSlug projectId =
       Rejected reason →
     store (leaveProject services workspaceSlug projectId world).1 =
       store world ∧
     (leaveProject services workspaceSlug projectId world).2 = Throws reason).
Proof.
  repeat split; intros.
  all: first
    [ rewrite fetchUserWorkspaceInfo_settled
    | rewrite leaveWorkspace_settled
    | rewrite fetchUserProjectInfo_settled
    | rewrite fetchUserProjectPermissions_settled
    | rewrite joinProject_settled
    | rewrite leaveProject_settled ].
  all: match goal with H : _ = Rejected _ |- _ => by rewrite H end.
Qed.

(** C3, amended. When [leaveWorkspace] of a slug that is a plain identifier
    succeeds, the entries of that workspace are deleted from all three
    caches in one transaction, the only one of the call; afterwards
    [workspaceInfoBySlug] is undefined for the slug and
    [projectPermissionsByWorkspaceSlugAndProjectId] is undefined for the slug
    with every project id. *)
Theorem leaveWorkspace_clears_workspace services workspaceSlug world :
  identifier workspaceSlug = true →
  userService_leaveWorkspace services workspaceSlug = Resolved tt →
  let result := leaveWorkspace services workspaceSlug world in
  result.2 = Returns tt ∧
  workspaceUserInfo (store result.1) =
    delete workspaceSlug (workspaceUserInfo (store world)) ∧
  projectUserInfo (store result.1) =
    delete workspaceSlug (projectUserInfo (store world)) ∧
  projectPermissions (store result.1) =
    delete workspaceSlug (projectPermissions (store world)) ∧
  transactions result.1 = (transactions world ++ [store result.1])%list ∧
  workspaceInfoBySlug (store result.1) workspaceSlug = Nothing ∧
  ∀ projectId,
    projectPermissionsByWorkspaceSlugAndProjectId
      (store result.1) workspaceSlug projectId = Nothing.
Proof.
  intros (_ & Hown & _ & Hplain)%identifier_spec Hcall result. subst result.
  rewrite leaveWorkspace_plain, Hcall by done. cbn.
  repeat split.
  - unfold workspaceInfoBySlug. cbn.
    destruct (negb (truthy workspaceSlug)); [done|].
    by rewrite lookup_delete_eq, Hown.
  - intros projectId. unfold projectPermissionsByWorkspaceSlugAndProjectId.
    cbn. destruct (_ || _); [done|]. by rewrite lookup_delete_eq, Hown.
Qed.

(** C6, amended. When [fetchUserProjectInfo] of a slug and a project id that
    are plain identifiers succeeds with a membership record, one transaction,
    the only one of the call, writes the record into ProjectMembership and
    its role into ProjectRoleIndex under the same key, so the two agree
    there; every other entry of the three caches is as before. *)
Theorem fetchUserProjectInfo_upserts_both services workspaceSlug projectId
    (response : IProjectMember) world :
  identifier workspaceSlug = true → identifier projectId = true →
  projectMemberService_projectMemberMe services workspaceSlug projectId =
    Resolved (Some response) →
  let result := fetchUserProjectInfo services workspaceSlug projectId world in
  result.2 = Returns (Some response) ∧
  ProjectMembership (store result.1) workspaceSlug projectId = Some response ∧
  ProjectRoleIndex (store result.1) workspaceSlug projectId =
    Some (role response) ∧
  role <$> ProjectMembership (store result.1) workspaceSlug projectId =
    ProjectRoleIndex (store result.1) workspaceSlug projectId ∧
  (∀ ws pid, ¬ (workspaceSlug = ws ∧ projectId = pid) →
     ProjectMembership (store result.1) ws pid =
       ProjectMembership (store world) ws pid ∧
     ProjectRoleIndex (store result.1) ws pid =
       ProjectRoleIndex (store world) ws pid) ∧
  workspaceUserInfo (store result.1) = workspaceUserInfo (store world) ∧
  transactions result.1 = (transactions world ++ [store result.1])%list.
Proof.
  intros Hws Hpid Hcall result. subst result.
  rewrite fetchUserProjectInfo_plain, Hcall by done.
  unfold ProjectMembership, ProjectRoleIndex. cbn.
  rewrite !get2_assign2, !decide_True by done.
  repeat split; intros; rewrite get2_assign2; by rewrite decide_False.
Qed.


(** C4, amended. When [fetchUserProjectPermissions] of a slug that is a
    plain identifier succeeds with a mapping, the slice of ProjectRoleIndex
    for that workspace is exactly the mapping (overwritten, not merged).
    For a non-empty slug and project id the lookup then returns the role the
    mapping gives, provided that role is not 0; and it returns undefined for
    every project id that is a plain identifier and has no entry in the
    mapping, whatever was cached before, and for every project id to which
    the mapping gives the role 0. *)
Theorem fetchUserProjectPermissions_overwrites services workspaceSlug
    (mapping : gmap string Z) world :
  identifier workspaceSlug = true →
  workspaceService_getWorkspaceUserProjectsRole services workspaceSlug =
    Resolved (Some mapping) →
  let result := fetchUserProjectPermissions services workspaceSlug world in
  result.2 = Returns (Some mapping) ∧
  projectPermissions (store result.1) !! workspaceSlug = Some (Some mapping) ∧
  (∀ projectId,
     ProjectRoleIndex (store result.1) workspaceSlug projectId =
       mapping !! projectId) ∧
  (∀ projectId r,
     workspaceSlug ≠ "" → projectId ≠ "" →
     mapping !! projectId = Some r → r ≠ 0 →
     projectPermissionsByWorkspaceSlugAndProjectId
       (store result.1) workspaceSlug projectId = Cached r) ∧
  (∀ projectId,
     identifier projectId = true → mapping !! projectId = None →
     projectPermissionsByWorkspaceSlugAndProjectId
       (store result.1) workspaceSlug projectId = Nothing) ∧
  (∀ projectId,
     mapping !! projectId = Some 0 →
     projectPermissionsByWorkspaceSlugAndProjectId
       (store result.1) workspaceSlug projectId = Nothing).
Proof.
  intros (Hsafe & _)%identifier_spec Hcall result. subst result.
  rewrite fetchUserProjectPermissions_settled, Hcall. cbn.
  unfold ProjectRoleIndex, projectPermissionsByWorkspaceSlugAndProjectId, get2.
  unfold with_projectPermissions, set1. rewrite Hsafe. cbn.
  rewrite !lookup_insert_eq. cbn.
  split; [done|]. split; [done|].
  split; [done|]. split; [|split].
  - intros projectId r Hws%truthy_string Hpid%truthy_string Hr
      Hnonzero%truthy_number.
    by rewrite Hws, Hpid, Hr, Hnonzero.
  - intros projectId (_ & Hown & _)%identifier_spec Hr.
    destruct (_ || _); [done|]. by rewrite Hr, Hown.
  - intros projectId Hr. destruct (_ || _); [done|]. by rewrite Hr.
Qed.

(** C10, amended. For a slug and a project id that are plain identifiers:
    [fetchUserWorkspaceInfo] and [fetchUserProjectInfo] leave the world as it
    is and return the response when the remote call resolves to a falsy
    response, and write the response, in one transaction, when it is a
    record; whereas [fetchUserProjectPermissions] stores whatever the call
    resolves to: a falsy response replaces the cached slice of the workspace,
    after which no role of that workspace can be looked up. *)
Theorem falsy_response_writes services workspaceSlug projectId world :
  identifier workspaceSlug = true → identifier projectId = true →
  (workspaceService_workspaceMemberMe services workspaceSlug = Resolved None →
   fetchUserWorkspaceInfo services workspaceSlug world =
     (world, Returns None)) ∧
  (∀ response,
     workspaceService_workspaceMemberMe services workspaceSlug =
       Resolved (Some response) →
     let result := fetchUserWorkspaceInfo services workspaceSlug world in
     result.2 = Returns (Some response) ∧
     workspaceUserInfo (store result.1) =
       <[workspaceSlug := response]> (workspaceUserInfo (store world)) ∧
     transactions result.1 = (transactions world ++ [store result.1])%list) ∧
  (projectMemberService_projectMemberMe services workspaceSlug projectId =
     Resolved None →
   fetchUserProjectInfo services workspaceSlug projectId world =
     (world, Returns None)) ∧
  (∀ response,
     projectMemberService_projectMemberMe services workspaceSlug projectId =
       Resolved (Some response) →
     let result :=
       fetchUserProjectInfo services workspaceSlug projectId world in
     result.2 = Returns (Some response) ∧
     ProjectMembership (store result.1) workspaceSlug projectId =
       Some response ∧
     ProjectRoleIndex (store result.1) workspaceSlug projectId =
       Some (role response) ∧
     transactions result.1 = (transactions world ++ [store result.1])%list) ∧
  (∀ response,
     workspaceService_getWorkspaceUserProjectsRole services workspaceSlug =
       Resolved response →
     let result := fetchUserProjectPermissions services workspaceSlug world in
     result.2 = Returns response ∧
     projectPermissions (store result.1) =
       <[workspaceSlug := response]> (projectPermissions (store world)) ∧
     transactions result.1 = (transactions world ++ [store result.1])%list) ∧
  (workspaceService_getWorkspaceUserProjectsRole services workspaceSlug =
     Resolved None →
   let result := fetchUserProjectPermissions services workspaceSlug world in
   projectPermissions (store result.1) !! workspaceSlug = Some None ∧
   ∀ pid,
     ProjectRoleIndex (store result.1) workspaceSlug pid = None ∧
     projectPermissionsByWorkspaceSlugAndProjectId
       (store result.1) workspaceSlug pid = Nothing).
Proof.
  intros Hws Hpid.
  pose proof Hws as (Hsafe & _)%identifier_spec.
  repeat apply conj.
  - intros Hcall. by rewrite fetchUserWorkspaceInfo_settled, Hcall.
  - intros response Hcall result. subst result.
    rewrite fetchUserWorkspaceInfo_settled, Hcall.
    unfold with_workspaceUserInfo, set1. by rewrite Hsafe.
  - intros Hcall. by rewrite fetchUserProjectInfo_settled, Hcall.
  - intros response Hcall result. subst result.
    rewrite fetchUserProjectInfo_plain, Hcall by done.
    unfold ProjectMembership, ProjectRoleIndex. cbn.
    by rewrite !get2_assign2, !decide_True.
  - intros response Hcall result. subst result.
    rewrite fetchUserProjectPermissions_settled, Hcall.
    unfold with_projectPermissions, set1. by rewrite Hsafe.
  - intros Hcall result. subst result.
    rewrite fetchUserProjectPermissions_settled, Hcall.
    unfold ProjectRoleIndex, get2.
    unfold projectPermissionsByWorkspaceSlugAndProjectId.
    unfold with_projectPermissions, set1. rewrite Hsafe. cbn.
    rewrite !lookup_insert_eq. cbn.
    split; [done|]. intros pid. split; [done|].
    by destruct (_ || _).
Qed.




End ActionClaims.

(** ** What the specification claims about [allowPermissions] *)

Section PermissionClaims.
Context {error : Type}.
Implicit Types (this : UserPermissionStore) (router : Router).
Implicit Types (allowed : list Z) (workspaceSlug projectId : string).
Implicit Types onPermissionAllowed : option (unit → completion error bool).

(** C1, amended. Called with a non-empty workspace slug (and, at PROJECT
    level, a non-empty project id), [allowPermissions] reads the role at the
    requested level, WORKSPACE from the role of the WorkspaceMembership
    record and PROJECT from ProjectRoleIndex.  It returns false when there is
    no entry (at PROJECT level for a slug that is a plain identifier), and
    false when the role is not among the allowed roles.  When the role is
    among the allowed roles and is not 0, it returns what the callback
    returns if a callback is passed, and true otherwise. *)
Theorem allowPermissions_explicit this router allowed onPermissionAllowed
    workspaceSlug :
  workspaceSlug ≠ "" →
  (∀ pid : option string,
     let result :=
       allowPermissions this router allowed WORKSPACE onPermissionAllowed
         (Some workspaceSlug) pid in
     (WorkspaceMembership this workspaceSlug = None →
      result = Returns false) ∧
     (∀ info,
        WorkspaceMembership this workspaceSlug = Some info →
        role info ∉ allowed → result = Returns false) ∧
     (∀ info,
        WorkspaceMembership this workspaceSlug = Some info →
        role info ∈ allowed → role info ≠ 0 →
        result = match onPermissionAllowed with
                 | Some callback => callback tt
                 | None => Returns true
                 end)) ∧
  (∀ projectId,
     projectId ≠ "" →
     let result :=
       allowPermissions this router allowed PROJECT onPermissionAllowed
         (Some workspaceSlug) (Some projectId) in
     (identifier workspaceSlug = true →
      ProjectRoleIndex this workspaceSlug projectId = None →
      result = Returns false) ∧
     (∀ r,
        ProjectRoleIndex this workspaceSlug projectId = Some r →
        r ∉ allowed → result = Returns false) ∧
     (∀ r,
        ProjectRoleIndex this workspaceSlug projectId = Some r →
        r ∈ allowed → r ≠ 0 →
        result = match onPermissionAllowed with
                 | Some callback => callback tt
                 | None => Returns true
                 end)).
Proof.
  intros Hws. split.
  - intros pid result. subst result.
    rewrite allowPermissions_workspace by done.
    repeat split.
    + by intros ->.
    + intros info -> Hout.
      rewrite <- includes_elem_of, not_true_iff_false in Hout.
      by rewrite Hout, andb_false_r.
    + intros info -> Hin%includes_elem_of Hrole%truthy_number.
      by rewrite Hin, Hrole.
  - intros projectId Hpid result. subst result.
    split; [|split].
    + intros (_ & Hown & _)%identifier_spec Hnone.
      by apply allowPermissions_project_absent.
    + intros r Hr Hout.
      rewrite (allowPermissions_project_cached _ _ _ _ _ _ r) by done.
      rewrite <- includes_elem_of, not_true_iff_false in Hout.
      by rewrite Hout, andb_false_r.
    + intros r Hr Hin%includes_elem_of Hrole%truthy_number.
      rewrite (allowPermissions_project_cached _ _ _ _ _ _ r) by done.
      by rewrite Hin, Hrole.
Qed.

(** C5, amended. For a workspace slug that is a non-empty plain identifier
    and a non-empty project id with no entry in ProjectRoleIndex,
    [allowPermissions] at PROJECT level returns false, and does not throw,
    for every list of allowed roles, with or without a callback. *)
Theorem allowPermissions_unfetched_project this router allowed
    onPermissionAllowed workspaceSlug projectId :
  identifier workspaceSlug = true →
  workspaceSlug ≠ "" → projectId ≠ "" →
  ProjectRoleIndex this workspaceSlug projectId = None →
  allowPermissions this router allowed PROJECT onPermissionAllowed
    (Some workspaceSlug) (Some projectId) = Returns false.
Proof.
  intros (_ & Hown & _)%identifier_spec Hws Hpid Hnone.
  by apply allowPermissions_project_absent.
Qed.

(** C9. A role that is cached but falsy is treated like a role that is not
    cached: [allowPermissions] returns false whatever the allowed roles and
    the callback are, at WORKSPACE level when the record's role is falsy, at
    PROJECT level when the role in the index is falsy, and at either level
    when the slug or project id it ends up with is empty or undefined
    (passed empty with no current one to fall back on), whatever is stored
    under the empty key. *)
Theorem allowPermissions_falsy_role this router allowed onPermissionAllowed :
  (∀ workspaceSlug (pid : option string) info,
     workspaceSlug ≠ "" →
     WorkspaceMembership this workspaceSlug = Some info →
     truthy (role info) = false →
     allowPermissions this router allowed WORKSPACE onPermissionAllowed
       (Some workspaceSlug) pid = Returns false) ∧
  (∀ workspaceSlug projectId r,
     workspaceSlug ≠ "" → projectId ≠ "" →
     ProjectRoleIndex this workspaceSlug projectId = Some r →
     truthy r = false →
     allowPermissions this router allowed PROJECT onPermissionAllowed
       (Some workspaceSlug) (Some projectId) = Returns false) ∧
  (∀ level (pid : option string),
     truthy (currentWorkspaceSlug router) = false →
     allowPermissions this router allowed level onPermissionAllowed
       (Some "") pid = Returns false) ∧
  (∀ ws : option string,
     truthy (currentProjectId router) = false →
     allowPermissions this router allowed PROJECT onPermissionAllowed
       ws (Some "") = Returns false).
Proof.
  repeat apply conj.
  - intros workspaceSlug pid info Hws Hinfo Hfalsy.
    rewrite allowPermissions_workspace by done. by rewrite Hinfo, Hfalsy.
  - intros workspaceSlug projectId r Hws Hpid Hr Hfalsy.
    rewrite (allowPermissions_project_cached _ _ _ _ _ _ r) by done.
    by rewrite Hfalsy.
  - intros level pid Hcur. by apply allowPermissions_no_workspace.
  - intros ws Hcur. by apply allowPermissions_no_project.
Qed.

End PermissionClaims.

(** ** The claims on the example session *)

Lemma allowPermissions_explicit_witness :
  "ws1" ≠ "" ∧
  WorkspaceMembership Fixture.cached "ws1" = Some Fixture.alice_in_ws1 ∧
  allowPermissions (error := string) Fixture.cached Fixture.nowhere
    [ADMIN; MEMBER] WORKSPACE None (Some "ws1") None = Returns true ∧
  ProjectRoleIndex Fixture.cached "ws1" "p9" = None ∧
  allowPermissions (error := string) Fixture.cached Fixture.nowhere
    [ADMIN; MEMBER] PROJECT None (Some "ws1") (Some "p9") = Returns false.
Proof.
  assert ("ws1" ≠ "") as Hws by discriminate.
  split; [exact Hws|]. split; [reflexivity|].
  destruct (allowPermissions_explicit (error := string)
              Fixture.cached Fixture.nowhere [ADMIN; MEMBER] None "ws1" Hws)
    as [Hworkspace Hproject].
  split; [|split; [reflexivity|]].
  - destruct (Hworkspace None) as (_ & _ & Hallowed).
    apply (Hallowed Fixture.alice_in_ws1).
    + reflexivity.
    + apply includes_elem_of. reflexivity.
    + discriminate.
  - destruct (Hproject "p9") as (Habsent & _); [discriminate|].
    apply Habsent; reflexivity.
Defined.

(** The claim C1 as the specification words it fails for a role of value 0:
    the role is cached and is among the allowed roles, no callback is
    passed, and the answer is false. *)
Lemma allowPermissions_zero_role_refused :
  ¬ (∀ this router allowed
       (onPermissionAllowed : option (unit → completion string bool))
       workspaceSlug (pid : option string) info,
       workspaceSlug ≠ "" →
       WorkspaceMembership this workspaceSlug = Some info →
       role info ∈ allowed →
       allowPermissions this router allowed WORKSPACE onPermissionAllowed
         (Some workspaceSlug) pid =
       match onPermissionAllowed with
       | Some callback => callback tt
       | None => Returns true
       end).
Proof.
  intros Hclaim.
  specialize (Hclaim Fixture.zero_roles Fixture.nowhere [0] None "ws1" None
                Fixture.nobody_in_ws1).
  assert (allowPermissions (error := string) Fixture.zero_roles
            Fixture.nowhere [0] WORKSPACE None (Some "ws1") None =
          Returns false) as Hcode by reflexivity.
  rewrite Hcode in Hclaim.
  assert (Returns (error := string) false = Returns true) as Habsurd.
  { apply Hclaim; [discriminate | reflexivity |].
    apply includes_elem_of. reflexivity. }
  discriminate Habsurd.
Qed.

Lemma actions_failure_atomic_witness :
  projectMemberService_projectMemberMe Fixture.offline "ws1" "p2" =
    Rejected "503" ∧
  store (fetchUserProjectInfo Fixture.offline "ws1" "p2" Fixture.session).1 =
    Fixture.cached ∧
  (fetchUserProjectInfo Fixture.offline "ws1" "p2" Fixture.session).2 =
    Throws "503".
Proof.
  split; [reflexivity|].
  destruct (actions_failure_atomic Fixture.offline Fixture.session "503")
    as (_ & _ & Hproject & _).
  exact (Hproject "ws1" "p2" eq_refl).
Defined.

Lemma leaveWorkspace_clears_workspace_witness :
  identifier "ws1" = true ∧
  userService_leaveWorkspace Fixture.online "ws1" = Resolved tt ∧
  workspaceInfoBySlug Fixture.cached "ws1" = Cached Fixture.alice_in_ws1 ∧
  workspaceInfoBySlug
    (store (leaveWorkspace Fixture.online "ws1" Fixture.session).1) "ws1" =
    Nothing ∧
  projectPermissionsByWorkspaceSlugAndProjectId
    (store (leaveWorkspace Fixture.online "ws1" Fixture.session).1)
    "ws1" "p1" = Nothing ∧
  length (transactions
            (leaveWorkspace Fixture.online "ws1" Fixture.session).1) = 1%nat.
Proof.
  split; [reflexivity|]. split; [reflexivity|]. split; [reflexivity|].
  destruct (leaveWorkspace_clears_workspace
              Fixture.online "ws1" Fixture.session eq_refl eq_refl)
    as (_ & _ & _ & _ & Hlog & Hinfo & Hroles).
  split; [exact Hinfo|]. split; [exact (Hroles "p1")|].
  rewrite Hlog. reflexivity.
Defined.

(** The claim C3 as the specification words it fails for the slug
    constructor: after the workspace of that name has been left the lookup
    does not return undefined but a builtin, the member of that name every
    object inherits. *)
Lemma leaveWorkspace_builtin_still_found :
  ¬ (∀ (services : Services string) workspaceSlug world,
       userService_leaveWorkspace services workspaceSlug = Resolved tt →
       workspaceInfoBySlug
         (store (leaveWorkspace services workspaceSlug world).1)
         workspaceSlug = Nothing).
Proof.
  intros Hclaim.
  specialize (Hclaim Fixture.online "constructor" Fixture.session eq_refl).
  vm_compute in Hclaim. discriminate Hclaim.
Qed.

Lemma fetchUserProjectPermissions_overwrites_witness :
  identifier "ws1" = true ∧
  workspaceService_getWorkspaceUserProjectsRole Fixture.online "ws1" =
    Resolved (Some Fixture.two_roles) ∧
  ProjectRoleIndex Fixture.cached "ws1" "p3" = Some GUEST ∧
  projectPermissionsByWorkspaceSlugAndProjectId
    (store (fetchUserProjectPermissions
              Fixture.online "ws1" Fixture.session).1) "ws1" "p3" = Nothing ∧
  projectPermissionsByWorkspaceSlugAndProjectId
    (store (fetchUserProjectPermissions
              Fixture.online "ws1" Fixture.session).1) "ws1" "p2" =
    Cached ADMIN.
Proof.
  split; [reflexivity|]. split; [reflexivity|]. split; [reflexivity|].
  destruct (fetchUserProjectPermissions_overwrites
              Fixture.online "ws1" _ Fixture.session eq_refl eq_refl)
    as (_ & _ & _ & Hpresent & Habsent & _).
  split.
  - apply Habsent; reflexivity.
  - apply Hpresent; [discriminate | discriminate | reflexivity | discriminate].
Defined.

(** The claim C4 as the specification words it fails in two ways: under the
    empty slug nothing can be looked up, and a role of value 0 is looked up
    as undefined under any key. *)
Lemma fetchUserProjectPermissions_lookup_not_verbatim :
  ¬ (∀ (services : Services string) workspaceSlug (mapping : gmap string Z)
       world projectId,
       projectId ≠ "" → (∀ pid r, mapping !! pid = Some r → r ≠ 0) →
       workspaceService_getWorkspaceUserProjectsRole services workspaceSlug =
         Resolved (Some mapping) →
       projectPermissionsByWorkspaceSlugAndProjectId
         (store (fetchUserProjectPermissions services workspaceSlug world).1)
         workspaceSlug projectId =
       match mapping !! projectId with
       | Some r => Cached r
       | None => Nothing
       end) ∧
  ¬ (∀ (services : Services string) workspaceSlug (mapping : gmap string Z)
       world projectId,
       workspaceSlug ≠ "" → projectId ≠ "" →
       workspaceService_getWorkspaceUserProjectsRole services workspaceSlug =
         Resolved (Some mapping) →
       projectPermissionsByWorkspaceSlugAndProjectId
         (store (fetchUserProjectPermissions services workspaceSlug world).1)
         workspaceSlug projectId =
       match mapping !! projectId with
       | Some r => Cached r
       | None => Nothing
       end).
Proof.
  split; intros Hclaim.
  - specialize (Hclaim Fixture.online "" Fixture.two_roles Fixture.session
                  "p1").
    assert (Nothing = Cached MEMBER) as Habsurd; [|discriminate Habsurd].
    apply Hclaim; [discriminate | | reflexivity].
    intros pid r. unfold Fixture.two_roles. rewrite lookup_insert.
    case_decide.
    + intros [= <-]. discriminate.
    + rewrite lookup_singleton. case_decide; [|done].
      intros [= <-]. discriminate.
  - specialize (Hclaim Fixture.demoted "ws1" {[ "p1" := 0 ]} Fixture.session
                  "p1").
    assert (Nothing = Cached 0) as Habsurd; [|discriminate Habsurd].
    apply Hclaim; [discriminate | discriminate | reflexivity].
Qed.

Lemma allowPermissions_unfetched_project_witness :
  identifier "ws1" = true ∧ "ws1" ≠ "" ∧ "p9" ≠ "" ∧
  ProjectRoleIndex Fixture.cached "ws1" "p9" = None ∧
  allowPermissions (error := string) Fixture.cached Fixture.at_ws1_p1
    [GUEST; MEMBER; ADMIN] PROJECT None (Some "ws1") (Some "p9") =
    Returns false.
Proof.
  assert ("ws1" ≠ "") as Hws by discriminate.
  assert ("p9" ≠ "") as Hpid by discriminate.
  split; [reflexivity|].
  split; [exact Hws|]. split; [exact Hpid|]. split; [reflexivity|].
  exact (allowPermissions_unfetched_project (error := string)
           Fixture.cached Fixture.at_ws1_p1 [GUEST; MEMBER; ADMIN] None
           "ws1" "p9" eq_refl Hws Hpid eq_refl).
Defined.

(** The claim C5 as the specification words it fails for the empty slug:
    the pair has no entry in the index, and the call is answered from the
    current workspace of the router. *)
Lemma allowPermissions_empty_slug_falls_back :
  ¬ (∀ this router allowed workspaceSlug projectId,
       ProjectRoleIndex this workspaceSlug projectId = None →
       allowPermissions (error := string) this router allowed PROJECT None
         (Some workspaceSlug) (Some projectId) = Returns false).
Proof.
  intros Hclaim.
  specialize (Hclaim Fixture.cached Fixture.at_ws1_p1 [MEMBER] "" "p1"
                eq_refl).
  assert (allowPermissions (error := string) Fixture.cached
            Fixture.at_ws1_p1 [MEMBER] PROJECT None (Some "") (Some "p1") =
          Returns true) as Hcode by reflexivity.
  rewrite Hcode in Hclaim. discriminate Hclaim.
Qed.

Lemma fetchUserProjectInfo_upserts_both_witness :
  identifier "ws2" = true ∧ identifier "p7" = true ∧
  projectMemberService_projectMemberMe Fixture.online "ws2" "p7" =
    Resolved (Some Fixture.alice_in_p1) ∧
  ProjectMembership
    (store (fetchUserProjectInfo Fixture.online "ws2" "p7" Fixture.session).1)
    "ws2" "p7" = Some Fixture.alice_in_p1 ∧
  ProjectRoleIndex
    (store (fetchUserProjectInfo Fixture.online "ws2" "p7" Fixture.session).1)
    "ws2" "p7" = Some MEMBER ∧
  length (transactions
            (fetchUserProjectInfo
               Fixture.online "ws2" "p7" Fixture.session).1) = 1%nat.
Proof.
  split; [reflexivity|]. split; [reflexivity|]. split; [reflexivity|].
  destruct (fetchUserProjectInfo_upserts_both
              Fixture.online "ws2" "p7" Fixture.alice_in_p1 Fixture.session
              eq_refl eq_refl eq_refl)
    as (_ & Hmembership & Hindex & _ & _ & _ & Hlog).
  split; [exact Hmembership|]. split; [exact Hindex|].
  rewrite Hlog. reflexivity.
Defined.

(** The claim C6 as the specification words it fails for the slug
    constructor: lodash refuses to write under that key, so the record and
    its role are cached nowhere. *)
Lemma fetchUserProjectInfo_refused_key :
  ¬ (∀ (services : Services string) workspaceSlug projectId
       (response : IProjectMember) world,
       projectMemberService_projectMemberMe services workspaceSlug projectId =
         Resolved (Some response) →
       ProjectMembership
         (store (fetchUserProjectInfo services workspaceSlug projectId
                   world).1) workspaceSlug projectId = Some response ∧
       ProjectRoleIndex
         (store (fetchUserProjectInfo services workspaceSlug projectId
                   world).1) workspaceSlug projectId = Some (role response)).
Proof.
  intros Hclaim.
  destruct (Hclaim Fixture.online "constructor" "p1" Fixture.alice_in_p1
              Fixture.session eq_refl) as [Hmembership _].
  vm_compute in Hmembership. discriminate Hmembership.
Qed.




Lemma allowPermissions_falsy_role_witness :
  WorkspaceMembership Fixture.zero_roles "ws1" = Some Fixture.nobody_in_ws1 ∧
  truthy (role Fixture.nobody_in_ws1) = false ∧
  0 ∈ [0; ADMIN] ∧
  allowPermissions (error := string) Fixture.zero_roles Fixture.nowhere
    [0; ADMIN] WORKSPACE (Some (λ _, Returns true)) (Some "ws1") None =
    Returns false ∧
  allowPermissions (error := string) Fixture.zero_roles Fixture.nowhere
    [0; ADMIN] PROJECT (Some (λ _, Returns true)) (Some "ws1") (Some "p1") =
    Returns false ∧
  allowPermissions (error := string) Fixture.zero_roles Fixture.nowhere
    [0; ADMIN] PROJECT (Some (λ _, Returns true)) (Some "") (Some "p1") =
    Returns false.
Proof.
  split; [reflexivity|]. split; [reflexivity|].
  split; [apply includes_elem_of; reflexivity|].
  destruct (allowPermissions_falsy_role (error := string)
              Fixture.zero_roles Fixture.nowhere [0; ADMIN]
              (Some (λ _, Returns true)))
    as (Hworkspace & Hproject & Hslug & _).
  split; [|split].
  - apply (Hworkspace "ws1" None Fixture.nobody_in_ws1);
      [discriminate | reflexivity | reflexivity].
  - apply (Hproject "ws1" "p1" 0);
      [discriminate | discriminate | reflexivity | reflexivity].
  - apply Hslug. reflexivity.
Defined.

Lemma falsy_response_writes_witness :
  identifier "ws1" = true ∧ identifier "p1" = true ∧
  workspaceService_getWorkspaceUserProjectsRole Fixture.hollow "ws1" =
    Resolved None ∧
  ProjectRoleIndex Fixture.cached "ws1" "p1" = Some MEMBER ∧
  ProjectRoleIndex
    (store (fetchUserProjectPermissions
              Fixture.hollow "ws1" Fixture.session).1) "ws1" "p1" = None ∧
  fetchUserWorkspaceInfo Fixture.hollow "ws1" Fixture.session =
    (Fixture.session, Returns None) ∧
  fetchUserProjectInfo Fixture.hollow "ws1" "p1" Fixture.session =
    (Fixture.session, Returns None).
Proof.
  split; [reflexivity|]. split; [reflexivity|].
  split; [reflexivity|]. split; [reflexivity|].
  destruct (falsy_response_writes Fixture.hollow "ws1" "p1" Fixture.session
              eq_refl eq_refl)
    as (Hworkspace & _ & Hproject & _ & _ & Hroles).
  split; [|split].
  - destruct (Hroles eq_refl) as [_ Hgone]. exact (proj1 (Hgone "p1")).
  - exact (Hworkspace eq_refl).
  - exact (Hproject eq_refl).
Defined.

(** The claim C10 as the specification words it fails for the slug
    constructor: lodash refuses to write under that key, so what
    [fetchUserProjectPermissions] resolved to is not stored. *)
Lemma fetchUserProjectPermissions_refused_key :
  ¬ (∀ (services : Services string) workspaceSlug
       (response : option (gmap string Z)) world,
       workspaceService_getWorkspaceUserProjectsRole services workspaceSlug =
         Resolved response →
       projectPermissions
         (store (fetchUserProjectPermissions services workspaceSlug world).1)
         !! workspaceSlug = Some response).
Proof.
  intros Hclaim.
  specialize (Hclaim Fixture.online "constructor" (Some Fixture.two_roles)
                Fixture.session eq_refl).
  vm_compute in Hclaim. discriminate Hclaim.
Qed.

(** * Further properties of the store *)

(** ** The lookups and [allowPermissions] *)

Section Lookups.
Implicit Types (this : UserPermissionStore) (workspaceSlug projectId : string).


End Lookups.

Section AllowPermissionsMore.
Context {error : Type}.
Implicit Types (this : UserPermissionStore) (router : Router).
Implicit Types (allowed : list Z) (level : EUserPermissionsLevel).
Implicit Types onPermissionAllowed : option (unit → completion error bool).
Implicit Types ws pid : option string.

(** Every call tests one role, found without looking at the allowed roles or
    at the callback. *)
Lemma allowPermissions_role_test this router level ws pid :
  ∃ currentUserRole : reading Z, ∀ allowed onPermissionAllowed,
    allowPermissions this router allowed level onPermissionAllowed ws pid =
    match currentUserRole with
    | Cached r =>
        if truthy r && includes allowed r
        then match onPermissionAllowed with
             | Some callback => callback tt
             | None => Returns true
             end
        else Returns false
    | Builtin | Nothing => Returns false
    | Unknown => Unmodelled
    end.
Proof. unfold allowPermissions. eexists. intros. reflexivity. Qed.

(** X2. A callback only ever refines a positive answer: the call with a
    callback returns what the callback returns when the call without one
    returns true, and false, without calling the callback, when that one
    returns false. *)
Theorem allowPermissions_callback this router allowed level
    onPermissionAllowed ws pid :
  allowPermissions this router allowed level onPermissionAllowed ws pid =
  match allowPermissions this router allowed level None ws pid with
  | Returns true =>
      match onPermissionAllowed with
      | Some callback => callback tt
      | None => Returns true
      end
  | Returns false => Returns false
  | Throws reason => Throws reason
  | Unmodelled => Unmodelled
  end.
Proof.
  destruct (allowPermissions_role_test this router level ws pid)
    as [currentUserRole Htest].
  rewrite !Htest.
  destruct currentUserRole as [|r| |]; try done.
  by destruct (truthy r && _).
Qed.

(** X3. The allowed roles only ever widen the answer: with no allowed role
    the answer, where the call stays within the model, is false whatever is
    cached, and an answer that is true for a list of allowed roles is true
    for every list that contains them. *)
Theorem allowPermissions_monotone this router level ws pid :
  (∀ onPermissionAllowed,
     allowPermissions this router [] level onPermissionAllowed ws pid ≠
       Unmodelled →
     allowPermissions this router [] level onPermissionAllowed ws pid =
       Returns false) ∧
  (∀ allowed allowed',
     allowed ⊆ allowed' →
     allowPermissions (error := error) this router allowed level None ws pid =
       Returns true →
     allowPermissions (error := error) this router allowed' level None ws pid =
       Returns true).
Proof.
  destruct (allowPermissions_role_test this router level ws pid)
    as [currentUserRole Htest].
  split.
  - intros onPermissionAllowed. rewrite Htest.
    destruct currentUserRole as [|r| |]; cbn; try done.
    by rewrite andb_false_r.
  - intros allowed allowed' Hsub. rewrite !Htest.
    destruct currentUserRole as [|r| |]; cbn; try done.
    destruct (truthy r); cbn; [|done].
    destruct (includes allowed r) eqn:Hin; [|done].
    apply includes_elem_of, Hsub, includes_elem_of in Hin. by rewrite Hin.
Qed.

(** X4. An omitted slug or project id, and an empty one alike, stands for
    the current one of the router; and a slug and project id that are passed
    non-empty make the router irrelevant. *)
Theorem allowPermissions_fallback this router allowed level
    onPermissionAllowed :
  allowPermissions this router allowed level onPermissionAllowed None None =
    allowPermissions this router allowed level onPermissionAllowed
      (currentWorkspaceSlug router) (currentProjectId router) ∧
  (∀ pid,
     allowPermissions this router allowed level onPermissionAllowed
       (Some "") pid =
     allowPermissions this router allowed level onPermissionAllowed
       None pid) ∧
  (∀ ws,
     allowPermissions this router allowed level onPermissionAllowed
       ws (Some "") =
     allowPermissions this router allowed level onPermissionAllowed
       ws None) ∧
  (∀ router' workspaceSlug projectId,
     workspaceSlug ≠ "" → projectId ≠ "" →
     allowPermissions this router allowed level onPermissionAllowed
       (Some workspaceSlug) (Some projectId) =
     allowPermissions this router' allowed level onPermissionAllowed
       (Some workspaceSlug) (Some projectId)).
Proof.
  repeat apply conj.
  - unfold allowPermissions. cbn.
    by destruct (currentWorkspaceSlug router) as [[|c s]|],
                (currentProjectId router) as [[|c' s']|].
  - done.
  - done.
  - intros router' [|c s] [|c' s'] Hws Hpid; done.
Qed.

(** X5. [allowPermissions] never reads ProjectMembership; at WORKSPACE level
    it reads neither the role index nor the project id, passed or current;
    and at PROJECT level it does not read WorkspaceMembership: the role in a
    workspace grants nothing in its projects. *)
Theorem allowPermissions_reads this router allowed onPermissionAllowed
    ws pid :
  (∀ level update,
     allowPermissions (with_projectUserInfo update this) router allowed level
       onPermissionAllowed ws pid =
     allowPermissions this router allowed level onPermissionAllowed ws pid) ∧
  (∀ update pid' project,
     allowPermissions (with_projectPermissions update this)
       {| currentWorkspaceSlug := currentWorkspaceSlug router;
          currentProjectId := project |}
       allowed WORKSPACE onPermissionAllowed ws pid' =
     allowPermissions this router allowed WORKSPACE onPermissionAllowed
       ws pid) ∧
  (∀ update,
     allowPermissions (with_workspaceUserInfo update this) router allowed
       PROJECT onPermissionAllowed ws pid =
     allowPermissions this router allowed PROJECT onPermissionAllowed ws pid).
Proof.
  repeat apply conj.
  - done.
  - intros update pid' project. unfold allowPermissions. cbn.
    by rewrite !(decide_False (P := WORKSPACE = PROJECT)) by done.
  - intros update. unfold allowPermissions. cbn.
    by rewrite !(decide_True (P := PROJECT = PROJECT)) by done.
Qed.

End AllowPermissionsMore.

(** ** More on lodash paths *)

Section PathsMore.
Context {S V : Type} `{Slot S V}.
Implicit Types object : gmap string S.

(** Whether a [set] stays within the model does not depend on the value. *)
Lemma set2_defined object (key1 key2 : string) (value value' : V) :
  is_Some (set2 object key1 key2 value) →
  is_Some (set2 object key1 key2 value').
Proof.
  intros [object' Hset].
  pose proof (set2_set2 object key1 key2 value' value) as Hagain.
  destruct (set2 object key1 key2 value'); [done|]. congruence.
Qed.

(** [set] removes nothing. *)
Lemma set2_keeps object object' (key1 key2 : string) (value : V)
    (k1 k2 : string) :
  set2 object key1 key2 value = Some object' →
  is_Some (get2 object k1 k2) → is_Some (get2 object' k1 k2).
Proof.
  unfold set2, set2_fresh, get2. intros Hset Hsome.
  destruct (decide (key1 = k1)) as [->|Hne]; cycle 1.
  { destruct (unsafe_key key1); [congruence|].
    destruct (object !! key1) as [slot|].
    - destruct (isObject slot).
      + destruct (unsafe_key key2); simplify_eq; [done|].
        by rewrite lookup_insert_ne.
      + destruct (isIndex key2); [done|].
        destruct (unsafe_key key2); simplify_eq; by rewrite lookup_insert_ne.
    - destruct (inherited key1); [done|].
      destruct (isIndex key2); [done|].
      destruct (unsafe_key key2); simplify_eq; by rewrite lookup_insert_ne. }
  destruct (object !! k1) as [slot|] eqn:Hslot; cbn in Hsome;
    [|by destruct Hsome].
  destruct (isObject slot) as [nested|] eqn:Hnested; cbn in Hsome;
    [|by destruct Hsome].
  destruct (unsafe_key k1); [simplify_eq; by rewrite Hslot; cbn; rewrite Hnested|].
  destruct (unsafe_key key2); simplify_eq.
  - rewrite Hslot. cbn. by rewrite Hnested.
  - rewrite lookup_insert_eq. cbn. rewrite isObject_ofObject. cbn.
    destruct (decide (key2 = k2)) as [->|Hne2].
    + by rewrite lookup_insert_eq.
    + by rewrite lookup_insert_ne.
Qed.

End PathsMore.

Lemma unset1_delete {V} (object object' : gmap string V) (path : string) :
  unset1 object path = Some object' → object' = delete path object.
Proof. unfold unset1. destruct (_ || _); congruence. Qed.

(** ** More on the actions *)

Section ActionsMore.
Context {error : Type}.
Implicit Types (services : Services error) (world : World error).
Implicit Types (workspaceSlug projectId : string) (reason : error).

(** For identifiers the [set] of [joinProject] is an assignment. *)
Lemma joinProject_plain services workspaceSlug projectId world :
  identifier workspaceSlug = true → identifier projectId = true →
  joinProject services workspaceSlug projectId world =
  match userService_joinProject services workspaceSlug [projectId] with
  | Resolved response =>
      if truthy response then
        (commit (with_projectPermissions
                   (λ cache, assign2 cache workspaceSlug projectId
                               (default 0 response))
                   (store world))
           world, Returns response)
      else (world, Returns response)
  | Rejected reason =>
      ({| store := store world;
          console := console world ++
            [("Error user joining the project", reason)];
          transactions := transactions world |},
       Throws reason)
  end.
Proof.
  intros Hws Hpid. rewrite joinProject_settled.
  destruct (userService_joinProject _ _ _) as [response|reason]; [|done].
  destruct (truthy response); [|done].
  by rewrite set2_identifier by done.
Qed.

(** A call on identifiers stays within the model. *)
Lemma plain_call_within_model services (c : call) world :
  plain c = true → escapes services c world = false.
Proof.
  destruct c as [ws|ws|ws pid|ws|ws pid|ws pid]; cbn; unfold unmodelled.
  - intros _. rewrite fetchUserWorkspaceInfo_settled.
    by destruct (workspaceService_workspaceMemberMe services ws)
      as [[response|]|reason].
  - intros (_ & _ & _ & Hplain)%identifier_spec.
    rewrite leaveWorkspace_plain by done.
    by destruct (userService_leaveWorkspace services ws).
  - intros [Hws Hpid]%andb_true_iff.
    rewrite fetchUserProjectInfo_plain by done.
    by destruct (projectMemberService_projectMemberMe services ws pid)
      as [[response|]|reason].
  - intros _. rewrite fetchUserProjectPermissions_settled.
    by destruct (workspaceService_getWorkspaceUserProjectsRole services ws).
  - intros [Hws Hpid]%andb_true_iff.
    rewrite joinProject_plain by done.
    destruct (userService_joinProject services ws [pid]) as [r|]; [|done].
    by destruct (truthy r).
  - intros _. rewrite leaveProject_settled.
    by destruct (userService_leaveProject services ws pid).
Qed.

Lemma plain_history_within_model
    (history : list (Services error * call)) world :
  (∀ services c, (services, c) ∈ history → plain c = true) →
  within_model history world.
Proof.
  revert world.
  induction history as [|[services c] history IH]; intros world Hplain.
  - done.
  - split.
    + apply plain_call_within_model, (Hplain services). by left.
    + apply IH. intros services' c' Hin. apply (Hplain services'). by right.
Qed.

(** X6. When [joinProject] of a slug and a project id that are plain
    identifiers resolves to a truthy role, that role becomes the
    ProjectRoleIndex entry of the project, in one transaction, and nothing
    else changes: no other index entry, and no membership record, of the
    project or of the workspace. *)
Theorem joinProject_grants services workspaceSlug projectId (r : Z) world :
  identifier workspaceSlug = true → identifier projectId = true →
  userService_joinProject services workspaceSlug [projectId] =
    Resolved (Some r) →
  r ≠ 0 →
  let result := joinProject services workspaceSlug projectId world in
  result.2 = Returns (Some r) ∧
  ProjectRoleIndex (store result.1) workspaceSlug projectId = Some r ∧
  (∀ ws pid, ¬ (workspaceSlug = ws ∧ projectId = pid) →
     ProjectRoleIndex (store result.1) ws pid =
       ProjectRoleIndex (store world) ws pid) ∧
  projectUserInfo (store result.1) = projectUserInfo (store world) ∧
  workspaceUserInfo (store result.1) = workspaceUserInfo (store world) ∧
  transactions result.1 = (transactions world ++ [store result.1])%list.
Proof.
  intros Hws Hpid Hcall Hr%truthy_number result. subst result.
  rewrite joinProject_plain, Hcall by done. cbn. rewrite Hr.
  unfold ProjectRoleIndex. cbn. rewrite get2_assign2, decide_True by done.
  repeat split. intros ws pid Hother. by rewrite get2_assign2, decide_False.
Qed.

(** X7. When [joinProject] resolves to a falsy response, undefined or the
    role 0, nothing is written: the world is as before and the response is
    returned. *)
Theorem joinProject_falsy services workspaceSlug projectId
    (response : option Z) world :
  userService_joinProject services workspaceSlug [projectId] =
    Resolved response →
  response = None ∨ response = Some 0 →
  joinProject services workspaceSlug projectId world =
    (world, Returns response).
Proof.
  intros Hcall Hfalsy. rewrite joinProject_settled, Hcall.
  by destruct Hfalsy as [-> | ->].
Qed.

(** X8. Fetching again replaces what the earlier fetch stored: for each of
    the three fetches, the store after two successful fetches of the same
    key is the store after the second one alone. *)
Theorem refetch_replaces services services' workspaceSlug projectId world :
  (∀ info info' : IWorkspaceMemberMe,
     workspaceService_workspaceMemberMe services workspaceSlug =
       Resolved (Some info) →
     workspaceService_workspaceMemberMe services' workspaceSlug =
       Resolved (Some info') →
     store (fetchUserWorkspaceInfo services' workspaceSlug
              (fetchUserWorkspaceInfo services workspaceSlug world).1).1 =
     store (fetchUserWorkspaceInfo services' workspaceSlug world).1) ∧
  (∀ member member' : IProjectMember,
     projectMemberService_projectMemberMe services workspaceSlug projectId =
       Resolved (Some member) →
     projectMemberService_projectMemberMe services' workspaceSlug projectId =
       Resolved (Some member') →
     store (fetchUserProjectInfo services' workspaceSlug projectId
              (fetchUserProjectInfo services workspaceSlug projectId
                 world).1).1 =
     store (fetchUserProjectInfo services' workspaceSlug projectId world).1) ∧
  (∀ response response' : option (gmap string Z),
     workspaceService_getWorkspaceUserProjectsRole services workspaceSlug =
       Resolved response →
     workspaceService_getWorkspaceUserProjectsRole services' workspaceSlug =
       Resolved response' →
     store (fetchUserProjectPermissions services' workspaceSlug
              (fetchUserProjectPermissions services workspaceSlug world).1).1 =
     store (fetchUserProjectPermissions services' workspaceSlug world).1).
Proof.
  repeat apply conj.
  - intros info info' Hfirst Hsecond.
    rewrite !fetchUserWorkspaceInfo_settled, Hfirst, Hsecond. cbn.
    unfold with_workspaceUserInfo. cbn. by rewrite set1_set1.
  - intros member member' Hfirst Hsecond.
    rewrite (fetchUserProjectInfo_settled services), Hfirst.
    pose proof (set2_set2 (projectUserInfo (store world))
                  workspaceSlug projectId member member') as Hprojects.
    pose proof (set2_set2 (projectPermissions (store world))
                  workspaceSlug projectId (role member) (role member'))
      as Hroles.
    destruct (set2 (projectUserInfo (store world)) _ _ member)
      as [projects|] eqn:Hset1; [|done].
    destruct (set2 (projectPermissions (store world)) _ _ (role member))
      as [roles|] eqn:Hset2; [|done].
    rewrite !fetchUserProjectInfo_settled, Hsecond. cbn.
    rewrite Hprojects, Hroles.
    destruct (set2_defined (projectUserInfo (store world))
                workspaceSlug projectId member member') as [projects' ->];
      [by rewrite Hset1|].
    by destruct (set2_defined (projectPermissions (store world))
                   workspaceSlug projectId (role member) (role member'))
      as [roles' ->]; [by rewrite Hset2|].
  - intros response response' Hfirst Hsecond.
    rewrite !fetchUserProjectPermissions_settled, Hfirst, Hsecond. cbn.
    unfold with_projectPermissions. cbn. by rewrite set1_set1.
Qed.

(** X9. Leaving a project of which the role index holds nothing, because
    the workspace or the project was never fetched or the slice is
    undefined, succeeds and leaves the store exactly as it was. *)
Theorem leaveProject_uncached services workspaceSlug projectId world :
  userService_leaveProject services workspaceSlug projectId = Resolved tt →
  ProjectRoleIndex (store world) workspaceSlug projectId = None →
  (leaveProject services workspaceSlug projectId world).2 = Returns tt ∧
  store (leaveProject services workspaceSlug projectId world).1 = store world.
Proof.
  intros Hcall Hnone. rewrite leaveProject_settled, Hcall. cbn.
  split; [done|]. unfold with_projectPermissions.
  rewrite unset2_absent by done. by destruct (store world).
Qed.

(** X10. For a slug and a project id that are plain identifiers, joining a
    project and then leaving it gives back the role index as it was without
    the entry of that project: every other entry is as before, and if the
    project had no entry before, every entry of the index is as before, and
    so is the lookup of every project id that no object inherits. *)
Theorem joinProject_then_leaveProject services workspaceSlug projectId (r : Z)
    world :
  identifier workspaceSlug = true → identifier projectId = true →
  userService_joinProject services workspaceSlug [projectId] =
    Resolved (Some r) →
  userService_leaveProject services workspaceSlug projectId = Resolved tt →
  let world' :=
    (leaveProject services workspaceSlug projectId
       (joinProject services workspaceSlug projectId world).1).1 in
  (∀ ws pid,
     ProjectRoleIndex (store world') ws pid =
     if decide (workspaceSlug = ws ∧ projectId = pid) then None
     else ProjectRoleIndex (store world) ws pid) ∧
  (ProjectRoleIndex (store world) workspaceSlug projectId = None →
   ∀ ws pid,
     ProjectRoleIndex (store world') ws pid =
       ProjectRoleIndex (store world) ws pid ∧
     (inherited ws = false → inherited pid = false →
      projectPermissionsByWorkspaceSlugAndProjectId (store world') ws pid =
        projectPermissionsByWorkspaceSlugAndProjectId (store world) ws pid)).
Proof.
  intros Hws Hpid Hjoin Hleave world'.
  assert (∀ ws pid,
            ProjectRoleIndex (store world') ws pid =
            if decide (workspaceSlug = ws ∧ projectId = pid) then None
            else ProjectRoleIndex (store world) ws pid) as Hindex.
  { intros ws pid. subst world'.
    rewrite leaveProject_settled, Hleave, joinProject_plain, Hjoin by done.
    unfold ProjectRoleIndex.
    destruct (truthy (Some r)); cbn; rewrite get2_unset2;
      case_decide; try done.
    by rewrite get2_assign2, decide_False. }
  split; [done|]. intros Hnone ws pid.
  assert (ProjectRoleIndex (store world') ws pid =
          ProjectRoleIndex (store world) ws pid) as Hsame.
  { rewrite Hindex. case_decide as Hkey; [|done]. by destruct Hkey as [<- <-]. }
  split; [done|]. intros Hown1 Hown2.
  destruct (decide (ws = "")) as [->|Hws']; [done|].
  destruct (decide (pid = "")) as [->|Hpid'].
  { unfold projectPermissionsByWorkspaceSlugAndProjectId.
    by rewrite !orb_true_r. }
  rewrite !projectPermissions_lookup by done. by rewrite Hsame.
Qed.

(** X11. Leaving is idempotent on the store: leaving a workspace whose slug
    is a plain identifier, or a project, a second time changes nothing
    more. *)
Theorem leaving_twice services workspaceSlug projectId world :
  (identifier workspaceSlug = true →
   userService_leaveWorkspace services workspaceSlug = Resolved tt →
   store (leaveWorkspace services workspaceSlug
            (leaveWorkspace services workspaceSlug world).1).1 =
   store (leaveWorkspace services workspaceSlug world).1) ∧
  (userService_leaveProject services workspaceSlug projectId = Resolved tt →
   store (leaveProject services workspaceSlug projectId
            (leaveProject services workspaceSlug projectId world).1).1 =
   store (leaveProject services workspaceSlug projectId world).1).
Proof.
  split.
  - intros (_ & _ & _ & Hplain)%identifier_spec Hcall.
    rewrite !leaveWorkspace_plain, Hcall by done. cbn.
    by rewrite !delete_delete_eq.
  - intros Hcall. rewrite !leaveProject_settled, Hcall. cbn.
    unfold with_projectPermissions. cbn. by rewrite unset2_unset2.
Qed.

End ActionsMore.

(** ** How the actions compose *)

Section Composition.
Context {error : Type}.
Implicit Types (services : Services error) (world : World error).
Implicit Types (workspaceSlug projectId : string) (reason : error).
Implicit Types (router : Router) (allowed : list Z).
Implicit Types onPermissionAllowed : option (unit → completion error bool).

(** X12. For a slug and a project id that are plain identifiers, a bulk
    fetch of the roles overrides what a fetch of one project wrote to the
    index, and leaves the membership record alone: when the mapping lacks
    the project, its record is still cached while its role can no longer be
    looked up. *)
Theorem bulk_fetch_forgets_project services services' workspaceSlug projectId
    (member : IProjectMember) (mapping : gmap string Z) world :
  identifier workspaceSlug = true → identifier projectId = true →
  projectMemberService_projectMemberMe services workspaceSlug projectId =
    Resolved (Some member) →
  workspaceService_getWorkspaceUserProjectsRole services' workspaceSlug =
    Resolved (Some mapping) →
  mapping !! projectId = None →
  let world' :=
    (fetchUserProjectPermissions services' workspaceSlug
       (fetchUserProjectInfo services workspaceSlug projectId world).1).1 in
  ProjectMembership (store world') workspaceSlug projectId = Some member ∧
  ProjectRoleIndex (store world') workspaceSlug projectId = None ∧
  projectPermissionsByWorkspaceSlugAndProjectId
    (store world') workspaceSlug projectId = Nothing.
Proof.
  intros Hws Hpid Hsingle Hbulk Habsent world'. subst world'.
  pose proof Hws as (Hsafe & _)%identifier_spec.
  pose proof Hpid as (_ & Hown & _)%identifier_spec.
  rewrite fetchUserProjectPermissions_settled, Hbulk.
  rewrite fetchUserProjectInfo_plain, Hsingle by done.
  unfold ProjectMembership, ProjectRoleIndex.
  unfold projectPermissionsByWorkspaceSlugAndProjectId, get2 at 2.
  unfold with_projectPermissions, set1. rewrite Hsafe. cbn.
  rewrite get2_assign2, decide_True by done.
  rewrite !lookup_insert_eq. cbn. rewrite Habsent, Hown.
  split; [done|]. split; [done|]. by destruct (_ || _).
Qed.

(** X13. For a slug and a project id that are plain identifiers, a fetch of
    one project after a bulk fetch is merged into the slice the bulk fetch
    stored: the slice is the bulk response with the role of the project's
    record put in, and just that one role when the bulk response was
    undefined. *)
Theorem project_fetch_merges_into_bulk services services' workspaceSlug
    projectId (response : option (gmap string Z)) (member : IProjectMember)
    world :
  identifier workspaceSlug = true → identifier projectId = true →
  workspaceService_getWorkspaceUserProjectsRole services workspaceSlug =
    Resolved response →
  projectMemberService_projectMemberMe services' workspaceSlug projectId =
    Resolved (Some member) →
  let world' :=
    (fetchUserProjectInfo services' workspaceSlug projectId
       (fetchUserProjectPermissions services workspaceSlug world).1).1 in
  projectPermissions (store world') !! workspaceSlug =
    Some (Some (<[projectId := role member]> (default ∅ response))).
Proof.
  intros Hws Hpid Hbulk Hsingle world'. subst world'.
  pose proof Hws as (Hsafe & _)%identifier_spec.
  rewrite fetchUserProjectInfo_plain, Hsingle by done.
  rewrite fetchUserProjectPermissions_settled, Hbulk.
  unfold with_projectPermissions, set1. rewrite Hsafe. cbn.
  unfold assign2. rewrite lookup_insert_eq. cbn. rewrite lookup_insert_eq.
  by destruct response.
Qed.

(** A call that throws has changed nothing but the console, to which it has
    added one line with the reason; a call that returns has left the console
    alone. *)
Lemma perform_failure services (c : call) world :
  match failure services c world with
  | Some reason =>
      ∃ message,
        perform services c world =
        {| store := store world;
           console := console world ++ [(message, reason)];
           transactions := transactions world |}
  | None => console (perform services c world) = console world
  end.
Proof.
  destruct c as [ws|ws|ws pid|ws|ws pid|ws pid]; cbn; unfold thrown.
  - rewrite fetchUserWorkspaceInfo_settled.
    destruct (workspaceService_workspaceMemberMe services ws)
      as [[response|]|reason]; cbn; eauto.
  - rewrite leaveWorkspace_settled.
    destruct (userService_leaveWorkspace services ws); cbn; eauto.
    destruct (unset1 (workspaceUserInfo (store world)) ws); [|done].
    destruct (unset1 (projectUserInfo (store world)) ws); [|done].
    by destruct (unset1 (projectPermissions (store world)) ws).
  - rewrite fetchUserProjectInfo_settled.
    destruct (projectMemberService_projectMemberMe services ws pid)
      as [[response|]|reason]; cbn; eauto.
    destruct (set2 (projectUserInfo (store world)) _ _ _); [|done].
    by destruct (set2 (projectPermissions (store world)) _ _ _).
  - rewrite fetchUserProjectPermissions_settled.
    destruct (workspaceService_getWorkspaceUserProjectsRole services ws);
      cbn; eauto.
  - rewrite joinProject_settled.
    destruct (userService_joinProject services ws [pid]) as [r|];
      cbn; eauto.
    destruct (truthy r); cbn; eauto.
    by destruct (set2 (projectPermissions (store world)) _ _ _).
  - rewrite leaveProject_settled.
    destruct (userService_leaveProject services ws pid); cbn; eauto.
Qed.


(** X15. While every call fails, the cache is kept: after a history of
    calls that all throw, the store is the one the history started from, and
    the console has one more line per call. *)
Theorem failing_history_keeps_store
    (history : list (Services error * call)) world :
  (∀ services c world',
     (services, c) ∈ history → is_Some (failure services c world')) →
  store (run history world) = store world ∧
  length (console (run history world)) =
    (length (console world) + length history)%nat.
Proof.
  revert world.
  induction history as [|[services c] history IH]; intros world Hfail.
  - cbn. split; [done|]. lia.
  - cbn.
    destruct (Hfail services c world) as [reason Hreason]; [by left|].
    pose proof (perform_failure services c world) as Hperform.
    rewrite Hreason in Hperform. destruct Hperform as [message Hperform].
    destruct (IH (perform services c world)) as [Hstore Hconsole].
    { intros services' c' world' Hin. apply Hfail. by right. }
    fold (run history (perform services c world)).
    rewrite Hstore, Hconsole, Hperform. cbn.
    split; [done|]. rewrite length_app. cbn. lia.
Qed.

(** Only a [leaveWorkspace] of its workspace that resolves removes a
    membership record of a project. *)
Lemma perform_keeps_project_membership services (c : call) world
    workspaceSlug projectId :
  (c = LeaveWorkspace workspaceSlug →
   ∃ reason, userService_leaveWorkspace services workspaceSlug =
             Rejected reason) →
  is_Some (ProjectMembership (store world) workspaceSlug projectId) →
  is_Some (ProjectMembership (store (perform services c world))
             workspaceSlug projectId).
Proof.
  unfold ProjectMembership. intros Hleave Hsome.
  destruct c as [ws|ws|ws pid|ws|ws pid|ws pid]; cbn.
  - rewrite fetchUserWorkspaceInfo_settled.
    by destruct (workspaceService_workspaceMemberMe services ws)
      as [[response|]|reason].
  - rewrite leaveWorkspace_settled.
    destruct (userService_leaveWorkspace services ws) as [[]|reason] eqn:Hcall;
      cbn; [|done].
    destruct (unset1 (workspaceUserInfo (store world)) ws); [|done].
    destruct (unset1 (projectUserInfo (store world)) ws)
      as [projects|] eqn:Hunset; [|done].
    destruct (unset1 (projectPermissions (store world)) ws); [|done].
    cbn. apply unset1_delete in Hunset as ->.
    destruct (decide (ws = workspaceSlug)) as [->|Hne].
    + destruct Hleave as [reason Hrejected]; [done|]. congruence.
    + unfold get2 in *. by rewrite lookup_delete_ne.
  - rewrite fetchUserProjectInfo_settled.
    destruct (projectMemberService_projectMemberMe services ws pid)
      as [[response|]|reason]; cbn; [|done..].
    destruct (set2 (projectUserInfo (store world)) _ _ _)
      as [projects|] eqn:Hset; [|done].
    destruct (set2 (projectPermissions (store world)) _ _ _); [|done].
    cbn. by eapply set2_keeps.
  - rewrite fetchUserProjectPermissions_settled.
    by destruct (workspaceService_getWorkspaceUserProjectsRole services ws).
  - rewrite joinProject_settled.
    destruct (userService_joinProject services ws [pid]) as [r|]; [|done].
    destruct (truthy r); [|done].
    by destruct (set2 (projectPermissions (store world)) _ _ _).
  - rewrite leaveProject_settled.
    by destruct (userService_leaveProject services ws pid).
Qed.

(** X16. A membership record of a project, once cached, stays cached
    through every history of calls that stays within the model and in which
    no [leaveWorkspace] of its workspace resolves: neither [leaveProject]
    nor any fetch ever removes it. *)
Theorem project_membership_persists
    (history : list (Services error * call)) world workspaceSlug projectId :
  within_model history world →
  (∀ services,
     (services, LeaveWorkspace workspaceSlug) ∈ history →
     ∃ reason, userService_leaveWorkspace services workspaceSlug =
               Rejected reason) →
  is_Some (ProjectMembership (store world) workspaceSlug projectId) →
  is_Some (ProjectMembership (store (run history world))
             workspaceSlug projectId).
Proof.
  revert world.
  induction history as [|[services c] history IH];
    intros world Hmodel Hleave Hsome.
  - done.
  - cbn. destruct Hmodel as [_ Hmodel]. apply IH.
    + done.
    + intros services' Hin. apply Hleave. by right.
    + apply perform_keeps_project_membership; [|done].
      intros ->. apply Hleave. by left.
Qed.

(** X17. A workspace fetch decides the next workspace check: after
    [fetchUserWorkspaceInfo] of a slug that is a non-empty plain identifier
    has resolved to a record, [allowPermissions] at WORKSPACE level for that
    slug allows exactly when the role of the record is not 0 and is among
    the allowed roles. *)
Theorem fetchUserWorkspaceInfo_then_allowPermissions services workspaceSlug
    (info : IWorkspaceMemberMe) world router allowed onPermissionAllowed
    (pid : option string) :
  identifier workspaceSlug = true → workspaceSlug ≠ "" →
  workspaceService_workspaceMemberMe services workspaceSlug =
    Resolved (Some info) →
  allowPermissions
    (store (fetchUserWorkspaceInfo services workspaceSlug world).1)
    router allowed WORKSPACE onPermissionAllowed (Some workspaceSlug) pid =
  if decide (role info ≠ 0 ∧ role info ∈ allowed)
  then match onPermissionAllowed with
       | Some callback => callback tt
       | None => Returns true
       end
  else Returns false.
Proof.
  intros (Hsafe & _)%identifier_spec Hws Hcall.
  rewrite allowPermissions_workspace by done.
  rewrite fetchUserWorkspaceInfo_settled, Hcall.
  unfold WorkspaceMembership, with_workspaceUserInfo, set1. rewrite Hsafe.
  cbn. rewrite lookup_insert_eq.
  case_decide as Hrole.
  - destruct Hrole as [Hrole%truthy_number Hin%includes_elem_of].
    by rewrite Hrole, Hin.
  - destruct (truthy (role info)) eqn:Htruthy; [|done].
    destruct (includes allowed (role info)) eqn:Hin; [|done].
    destruct Hrole. split; [by apply truthy_number | by apply includes_elem_of].
Qed.

(** X18. After [leaveWorkspace] of a slug that is a non-empty plain
    identifier has succeeded, every permission check for that slug is
    refused, at both levels, for every list of allowed roles, project id
    and callback. *)
Theorem leaveWorkspace_then_allowPermissions services workspaceSlug world
    router allowed level onPermissionAllowed (pid : option string) :
  identifier workspaceSlug = true → workspaceSlug ≠ "" →
  userService_leaveWorkspace services workspaceSlug = Resolved tt →
  allowPermissions (store (leaveWorkspace services workspaceSlug world).1)
    router allowed level onPermissionAllowed (Some workspaceSlug) pid =
  Returns false.
Proof.
  intros (_ & Hown & _ & Hplain)%identifier_spec Hws Hcall.
  rewrite leaveWorkspace_plain, Hcall by done. cbn.
  destruct level.
  - rewrite allowPermissions_workspace by done.
    unfold WorkspaceMembership. cbn. by rewrite lookup_delete_eq.
  - apply allowPermissions_project_no_slice; [done..|].
    intros roles. cbn. by rewrite lookup_delete_eq.
Qed.


End Composition.

(** * Properties of the all-issues layout *)

Section AllIssues.
Implicit Types (filters : list string) (routeFilters : gmap string (option query_value)).

(** X20. An issue's properties can be edited exactly when the project id is
    given and not empty, the roles of the workspace are loaded, and the role
    in the project is not 0 and at least MEMBER.  In particular the quick
    actions are read-only while the roles are not loaded, and for an issue
    without a project id or with an empty one. *)
Theorem canEditProperties_spec (EUserProjectRoles_MEMBER : Z)
    (currentWorkspaceAllProjectsRole : option (gmap string Z))
    (projectId : option string) :
  (canEditProperties EUserProjectRoles_MEMBER
     currentWorkspaceAllProjectsRole projectId = true ↔
   ∃ id roles r,
     projectId = Some id ∧ id ≠ "" ∧
     currentWorkspaceAllProjectsRole = Some roles ∧
     roles !! id = Some r ∧ r ≠ 0 ∧ (EUserProjectRoles_MEMBER ≤ r)%Z) ∧
  readOnly EUserProjectRoles_MEMBER None projectId = true ∧
  readOnly EUserProjectRoles_MEMBER currentWorkspaceAllProjectsRole None =
    true ∧
  readOnly EUserProjectRoles_MEMBER currentWorkspaceAllProjectsRole (Some "") =
    true.
Proof.
  split; [|by destruct projectId as [[|c s]|]].
  unfold canEditProperties.
  destruct projectId as [[|c s]|]; cbn.
  - split; [done|]. by intros (id & roles & r & [= <-] & [] & _).
  - destruct currentWorkspaceAllProjectsRole as [roles|]; cbn.
    + destruct (roles !! String c s) as [r|] eqn:Hrole; cbn.
      * rewrite andb_true_iff, truthy_number, Z.geb_le. split.
        -- intros [Hr Hge]. by exists (String c s), roles, r.
        -- intros (id & roles' & r' & [= <-] & _ & [= <-] & Hr' & Hnz & Hge).
           rewrite Hrole in Hr'. by injection Hr' as <-.
      * split; [done|].
        intros (id & roles' & r' & [= <-] & _ & [= <-] & Hr' & _).
        congruence.
    + split; [done|]. by intros (id & roles & r & _ & _ & [=] & _).
  - split; [done|]. by intros (id & roles & r & [=] & _).
Qed.

Lemma split_comma_cons (s : string) :
  ∃ piece pieces, split_comma s = piece :: pieces.
Proof.
  induction s as [|c rest (piece & pieces & IH)]; cbn [split_comma]; [eauto|].
  destruct (Ascii.eqb c ","); [eauto|]. rewrite IH. eauto.
Qed.

Lemma join_comma_cons (c : ascii) (piece : string) (pieces : list string) :
  join_comma (String c piece :: pieces) =
  String c (join_comma (piece :: pieces)).
Proof. by destruct pieces. Qed.

(** Splitting at the commas loses nothing: joining the pieces gives the
    string back. *)
Lemma join_split_comma (s : string) : join_comma (split_comma s) = s.
Proof.
  induction s as [|c rest IH]; [done|]. cbn [split_comma].
  destruct (split_comma_cons rest) as (piece & pieces & Hrest).
  destruct (Ascii.eqb c ",") eqn:Hc.
  - apply Ascii.eqb_eq in Hc. subst c. rewrite Hrest in *. cbn in *.
    by rewrite IH.
  - rewrite Hrest in *. rewrite join_comma_cons. by rewrite IH.
Qed.

Lemma split_comma_no_comma (s : string) :
  has_comma s = false → split_comma s = [s].
Proof.
  induction s as [|c rest IH]; [done|]. cbn [has_comma split_comma].
  intros [Hc Hrest]%orb_false_iff. rewrite Hc, IH; done.
Qed.

Lemma split_comma_app (item rest : string) :
  has_comma item = false →
  split_comma (item ++ String "," rest) = item :: split_comma rest.
Proof.
  induction item as [|c item IH].
  - done.
  - change (String c item ++ String "," rest)
      with (String c (item ++ String "," rest)).
    cbn [has_comma split_comma].
    intros [Hc Hitem]%orb_false_iff. rewrite Hc, IH; done.
Qed.

(** An array of strings without commas, joined and split again, is the
    array. *)
Lemma split_join_comma (items : list string) :
  items ≠ [] → Forall (λ item, has_comma item = false) items →
  split_comma (join_comma items) = items.
Proof.
  induction items as [|item rest IH]; [done|]. intros _ Hitems.
  apply Forall_cons in Hitems as [Hitem Hrest].
  destruct rest as [|item' rest].
  - by apply split_comma_no_comma.
  - change (join_comma (item :: item' :: rest))
      with (item ++ String "," (join_comma (item' :: rest))).
    rewrite split_comma_app by done. by rewrite IH.
Qed.

(** The filters collected from the query, key by key. *)
Lemma collected_filters_lookup filters routeFilters (key : string) :
  map_fold (collect_filter filters) ∅ routeFilters !! key =
  value ← routeFilters !! key;
  collect_filter filters key value ∅ !! key.
Proof.
  apply (map_fold_weak_ind
           (λ issueFilters (route : gmap string (option query_value)),
              issueFilters !! key =
              value ← route !! key; collect_filter filters key value ∅ !! key)).
  - done.
  - intros k value route issueFilters Hfresh IH.
    destruct (decide (k = key)) as [->|Hne].
    + rewrite lookup_insert_eq. cbn. rewrite Hfresh in IH. cbn in IH.
      unfold collect_filter.
      destruct (or_undefined (toString <$> value)) as [text|]; [|done].
      destruct (includes_string filters key && truthy key); [|done].
      by rewrite !lookup_insert_eq.
    + rewrite lookup_insert_ne by done. rewrite <- IH.
      unfold collect_filter.
      destruct (or_undefined (toString <$> value)) as [text|]; [|done].
      destruct (includes_string filters k && truthy k); [|done].
      by rewrite lookup_insert_ne.
Qed.

(** [routerFilterParams] on a query that has a slug and a view id. *)
Lemma routerFilterParams_guard filters (slug view : query_value) routeFilters :
  routerFilterParams filters (Some slug) (Some view) routeFilters =
  if truthy slug && truthy view
     && includes_string ["all-issues"; "assigned"; "created"; "subscribed"]
          (toString view)
     && negb (Nat.eqb (size routeFilters) 0)
  then Some {| update_workspaceSlug := toString slug;
               update_filters :=
                 map_fold (collect_filter filters) ∅ routeFilters;
               update_viewId := toString view |}
  else None.
Proof.
  unfold routerFilterParams.
  destruct (truthy slug && truthy view && _); [|done].
  by destruct (negb _).
Qed.

(** X21. [routerFilterParams] calls [updateFilters] exactly when the
    workspace slug and the view id of the query are truthy, the view id is
    one of the four default views and the query has at least one more
    parameter; the call is made for that slug and view. *)
Theorem routerFilterParams_calls filters
    (workspaceSlug globalViewId : option query_value) routeFilters :
  (is_Some (routerFilterParams filters workspaceSlug globalViewId routeFilters)
   ↔ ∃ slug view,
       workspaceSlug = Some slug ∧ globalViewId = Some view ∧
       truthy slug = true ∧ truthy view = true ∧
       toString view ∈ ["all-issues"; "assigned"; "created"; "subscribed"] ∧
       routeFilters ≠ ∅) ∧
  (∀ update,
     routerFilterParams filters workspaceSlug globalViewId routeFilters =
       Some update →
     Some (update_workspaceSlug update) = toString <$> workspaceSlug ∧
     Some (update_viewId update) = toString <$> globalViewId).
Proof.
  destruct workspaceSlug as [slug|]; cycle 1.
  { split; [|discriminate]. split; [by intros [? [=]]|].
    by intros (? & ? & [=] & _). }
  destruct globalViewId as [view|]; cycle 1.
  { split; [|discriminate]. split; [by intros [? [=]]|].
    by intros (? & ? & _ & [=] & _). }
  rewrite routerFilterParams_guard.
  destruct (truthy slug) eqn:Hslug; cycle 1.
  { split; [|discriminate]. split; [by intros [? [=]]|].
    intros (? & ? & [= <-] & _ & Hs & _). congruence. }
  destruct (truthy view) eqn:Hview; cycle 1.
  { split; [|discriminate]. split; [by intros [? [=]]|].
    intros (? & ? & _ & [= <-] & _ & Hv & _). congruence. }
  destruct (includes_string _ (toString view)) eqn:Hdefault; cycle 1.
  { split; [|discriminate]. split; [by intros [? [=]]|].
    intros (? & ? & _ & [= <-] & _ & _ & Hin%includes_string_elem_of & _).
    congruence. }
  apply includes_string_elem_of in Hdefault.
  destruct (Nat.eqb (size routeFilters) 0) eqn:Hsize; cbn.
  - apply Nat.eqb_eq, map_size_empty_iff in Hsize.
    split; [|discriminate]. split; [by intros [? [=]]|].
    by intros (? & ? & _ & _ & _ & _ & _ & ?).
  - apply Nat.eqb_neq in Hsize. rewrite map_size_empty_iff in Hsize.
    split; [|by intros update [= <-]].
    split; [|by eauto]. intros _. by exists slug, view.
Qed.

(** X22. The filters handed to [updateFilters] are the parameters of the
    query whose key is one of the allowed filters and not empty and whose
    value, as a string, is not empty, each with its value split at the
    commas; every other parameter is dropped. *)
Theorem routerFilterParams_filters filters
    (workspaceSlug globalViewId : option query_value) routeFilters update
    (key : string) :
  routerFilterParams filters workspaceSlug globalViewId routeFilters =
    Some update →
  update_filters update !! key =
  match routeFilters !! key with
  | Some (Some value) =>
      if decide (key ∈ filters ∧ key ≠ "" ∧ toString value ≠ "")
      then Some (split_comma (toString value))
      else None
  | _ => None
  end.
Proof.
  unfold routerFilterParams. intros Hcall.
  destruct workspaceSlug as [slug|], globalViewId as [view|]; try done.
  destruct (_ && _); [|done].
  destruct (negb _); [|done]. injection Hcall as <-. cbn.
  rewrite collected_filters_lookup.
  destruct (routeFilters !! key) as [[value|]|]; cbn; [|done..].
  unfold collect_filter, or_undefined. cbn.
  destruct (truthy (toString value)) eqn:Htext.
  - destruct (includes_string filters key) eqn:Hin; cbn.
    + destruct (truthy key) eqn:Hkey.
      * rewrite lookup_insert_eq. rewrite decide_True; [done|].
        split; [by apply includes_string_elem_of|].
        split; by apply truthy_string.
      * rewrite decide_False; [done|]. intros (_ & Hk%truthy_string & _).
        congruence.
    + rewrite decide_False; [done|].
      intros (Hk%includes_string_elem_of & _). congruence.
  - rewrite decide_False; [done|]. intros (_ & _ & Ht%truthy_string).
    congruence.
Qed.

(** X23. A filter reaches [updateFilters] without loss: joined with commas
    again, the list handed over is the value's string; and a query value
    that is a non-empty array of non-empty strings without commas is handed
    over as that very array. *)
Theorem routerFilterParams_round_trip filters
    (workspaceSlug globalViewId : option query_value) routeFilters update
    (key : string) :
  routerFilterParams filters workspaceSlug globalViewId routeFilters =
    Some update →
  (∀ pieces,
     update_filters update !! key = Some pieces →
     ∃ value, routeFilters !! key = Some (Some value) ∧
              join_comma pieces = toString value) ∧
  (∀ items,
     routeFilters !! key = Some (Some (QueryArray items)) →
     key ∈ filters → key ≠ "" → items ≠ [] →
     Forall (λ item, item ≠ "" ∧ has_comma item = false) items →
     update_filters update !! key = Some items).
Proof.
  intros Hcall.
  pose proof (collected_filters_lookup filters routeFilters key) as Hlookup.
  assert (update_filters update =
          map_fold (collect_filter filters) ∅ routeFilters) as Hfilters.
  { unfold routerFilterParams in Hcall.
    destruct workspaceSlug as [slug|], globalViewId as [view|]; try done.
    destruct (_ && _); [|done]. destruct (negb _); [|done].
    by injection Hcall as <-. }
  rewrite Hfilters, Hlookup. clear Hcall Hfilters Hlookup. split.
  - intros pieces.
    destruct (routeFilters !! key) as [[value|]|]; cbn; [|done..].
    unfold collect_filter, or_undefined. cbn.
    destruct (truthy (toString value)); [|done].
    destruct (_ && _); [|done]. rewrite lookup_insert_eq.
    intros [= <-]. exists value. split; [done|]. apply join_split_comma.
  - intros items -> Hin%includes_string_elem_of Hkey%truthy_string
      Hitems Hclean. cbn.
    assert (truthy (join_comma items) = true) as Htext.
    { destruct items as [|item rest]; [done|].
      apply Forall_cons in Hclean as [[Hitem _] _].
      destruct item as [|c item]; [done|]. by destruct rest. }
    unfold collect_filter, or_undefined. cbn. rewrite Htext, Hin, Hkey. cbn.
    rewrite lookup_insert_eq. f_equal. apply split_join_comma; [done|].
    eapply Forall_impl; [exact Hclean|]. by intros item [_ ?].
Qed.

End AllIssues.

(** * The further properties on the examples *)

Lemma allowPermissions_monotone_witness :
  [ADMIN] ⊆ [ADMIN; MEMBER] ∧
  allowPermissions (error := string) Fixture.cached Fixture.nowhere [ADMIN]
    WORKSPACE None (Some "ws1") None = Returns true ∧
  allowPermissions (error := string) Fixture.cached Fixture.nowhere
    [ADMIN; MEMBER] WORKSPACE None (Some "ws1") None = Returns true.
Proof.
  assert ([ADMIN] ⊆ [ADMIN; MEMBER]) as Hsub.
  { intros r Hr. apply includes_elem_of. apply includes_elem_of in Hr.
    destruct (Z.eqb_spec r ADMIN) as [->|Hne]; [reflexivity|].
    cbn in Hr. apply Z.eqb_neq in Hne. rewrite Hne in Hr. discriminate Hr. }
  split; [exact Hsub|]. split; [reflexivity|].
  destruct (allowPermissions_monotone (error := string) Fixture.cached
              Fixture.nowhere WORKSPACE (Some "ws1") None) as [_ Hmonotone].
  exact (Hmonotone [ADMIN] [ADMIN; MEMBER] Hsub eq_refl).
Defined.

Lemma allowPermissions_fallback_witness :
  allowPermissions (error := string) Fixture.cached Fixture.at_ws1_p1
    [MEMBER] PROJECT None (Some "ws1") (Some "p3") =
  allowPermissions (error := string) Fixture.cached Fixture.nowhere
    [MEMBER] PROJECT None (Some "ws1") (Some "p3").
Proof.
  destruct (allowPermissions_fallback (error := string) Fixture.cached
              Fixture.at_ws1_p1 [MEMBER] PROJECT None)
    as (_ & _ & _ & Hexplicit).
  apply Hexplicit; discriminate.
Defined.

Lemma joinProject_grants_witness :
  identifier "ws2" = true ∧ identifier "p7" = true ∧
  userService_joinProject Fixture.online "ws2" ["p7"] =
    Resolved (Some MEMBER) ∧
  ProjectRoleIndex
    (store (joinProject Fixture.online "ws2" "p7" Fixture.session).1)
    "ws2" "p7" = Some MEMBER ∧
  ProjectMembership
    (store (joinProject Fixture.online "ws2" "p7" Fixture.session).1)
    "ws2" "p7" = None.
Proof.
  split; [reflexivity|]. split; [reflexivity|]. split; [reflexivity|].
  destruct (joinProject_grants Fixture.online "ws2" "p7" MEMBER
              Fixture.session eq_refl eq_refl eq_refl)
    as (_ & Hindex & _ & Hmembership & _); [discriminate|].
  split; [exact Hindex|].
  unfold ProjectMembership. rewrite Hmembership. reflexivity.
Defined.

Lemma joinProject_falsy_witness :
  userService_joinProject Fixture.demoted "ws1" ["p1"] = Resolved (Some 0) ∧
  joinProject Fixture.demoted "ws1" "p1" Fixture.session =
    (Fixture.session, Returns (Some 0)).
Proof.
  split; [reflexivity|].
  apply (joinProject_falsy Fixture.demoted "ws1" "p1" (Some 0)
           Fixture.session eq_refl).
  right. reflexivity.
Defined.

Lemma refetch_replaces_witness :
  WorkspaceMembership
    (store (fetchUserWorkspaceInfo Fixture.online "ws1"
              (fetchUserWorkspaceInfo Fixture.demoted "ws1"
                 new_world).1).1) "ws1" =
  Some Fixture.alice_in_ws1.
Proof.
  destruct (refetch_replaces Fixture.demoted Fixture.online "ws1" "p1"
              new_world) as (Hworkspace & _).
  rewrite (Hworkspace Fixture.nobody_in_ws1 Fixture.alice_in_ws1
             eq_refl eq_refl).
  reflexivity.
Defined.

Lemma leaveProject_uncached_witness :
  userService_leaveProject Fixture.online "ws9" "p1" = Resolved tt ∧
  ProjectRoleIndex Fixture.cached "ws9" "p1" = None ∧
  store (leaveProject Fixture.online "ws9" "p1" Fixture.session).1 =
    Fixture.cached.
Proof.
  split; [reflexivity|]. split; [reflexivity|].
  exact (proj2 (leaveProject_uncached Fixture.online "ws9" "p1"
                  Fixture.session eq_refl eq_refl)).
Defined.

Lemma joinProject_then_leaveProject_witness :
  ProjectRoleIndex Fixture.cached "ws1" "p9" = None ∧
  projectPermissionsByWorkspaceSlugAndProjectId
    (store (leaveProject Fixture.online "ws1" "p9"
              (joinProject Fixture.online "ws1" "p9" Fixture.session).1).1)
    "ws1" "p3" = Cached GUEST.
Proof.
  split; [reflexivity|].
  destruct (joinProject_then_leaveProject Fixture.online "ws1" "p9" MEMBER
              Fixture.session eq_refl eq_refl eq_refl eq_refl) as [_ Hsame].
  destruct (Hsame eq_refl "ws1" "p3") as [_ Hlookup].
  rewrite Hlookup by reflexivity. reflexivity.
Defined.

Lemma leaving_twice_witness :
  store (leaveWorkspace Fixture.online "ws1"
           (leaveWorkspace Fixture.online "ws1" Fixture.session).1).1 =
  store (leaveWorkspace Fixture.online "ws1" Fixture.session).1.
Proof.
  destruct (leaving_twice Fixture.online "ws1" "p1" Fixture.session)
    as [Hworkspace _].
  exact (Hworkspace eq_refl eq_refl).
Defined.

Lemma bulk_fetch_forgets_project_witness :
  Fixture.two_roles !! "p5" = None ∧
  ProjectMembership
    (store (fetchUserProjectPermissions Fixture.online "ws1"
              (fetchUserProjectInfo Fixture.online "ws1" "p5"
                 Fixture.session).1).1) "ws1" "p5" =
    Some Fixture.alice_in_p1 ∧
  projectPermissionsByWorkspaceSlugAndProjectId
    (store (fetchUserProjectPermissions Fixture.online "ws1"
              (fetchUserProjectInfo Fixture.online "ws1" "p5"
                 Fixture.session).1).1) "ws1" "p5" = Nothing.
Proof.
  split; [reflexivity|].
  destruct (bulk_fetch_forgets_project Fixture.online Fixture.online
              "ws1" "p5" Fixture.alice_in_p1 Fixture.two_roles
              Fixture.session eq_refl eq_refl eq_refl eq_refl eq_refl)
    as (Hmembership & _ & Hlookup).
  split; [exact Hmembership | exact Hlookup].
Defined.

Lemma project_fetch_merges_into_bulk_witness :
  projectPermissions
    (store (fetchUserProjectInfo Fixture.online "ws1" "p1"
              (fetchUserProjectPermissions Fixture.hollow "ws1"
                 Fixture.session).1).1) !! "ws1" =
  Some (Some {[ "p1" := MEMBER ]}).
Proof.
  rewrite (project_fetch_merges_into_bulk Fixture.hollow Fixture.online
             "ws1" "p1" None Fixture.alice_in_p1 Fixture.session
             eq_refl eq_refl eq_refl eq_refl).
  reflexivity.
Defined.


Lemma failing_history_keeps_store_witness :
  store (run [(Fixture.offline, LeaveWorkspace "ws1");
              (Fixture.offline, FetchUserProjectPermissions "ws1")]
           Fixture.session) = Fixture.cached.
Proof.
  refine (proj1 (failing_history_keeps_store
                   [(Fixture.offline, LeaveWorkspace "ws1");
                    (Fixture.offline, FetchUserProjectPermissions "ws1")]
                   Fixture.session _)).
  intros services c world' Hin. apply list_elem_of_In in Hin. cbn in Hin.
  destruct Hin as [Hin|[Hin|[]]]; injection Hin as <- <-;
    exists "503"; reflexivity.
Defined.

Lemma project_membership_persists_witness :
  is_Some
    (ProjectMembership
       (store (run [(Fixture.online, LeaveProject "ws1" "p1");
                    (Fixture.offline, LeaveWorkspace "ws1");
                    (Fixture.hollow, FetchUserProjectPermissions "ws1")]
                 Fixture.session)) "ws1" "p1").
Proof.
  apply project_membership_persists.
  - split; [reflexivity|]. split; [reflexivity|]. split; [reflexivity|].
    exact I.
  - intros services Hin. apply list_elem_of_In in Hin. cbn in Hin.
    destruct Hin as [Hin|[Hin|[Hin|[]]]]; try discriminate Hin.
    injection Hin as <-. exists "503". reflexivity.
  - exists Fixture.alice_in_p1. reflexivity.
Defined.

Lemma fetchUserWorkspaceInfo_then_allowPermissions_witness :
  allowPermissions (error := string)
    (store (fetchUserWorkspaceInfo Fixture.online "ws2" Fixture.session).1)
    Fixture.nowhere [ADMIN; MEMBER] WORKSPACE None (Some "ws2") None =
    Returns true ∧
  allowPermissions (error := string)
    (store (fetchUserWorkspaceInfo Fixture.online "ws2" Fixture.session).1)
    Fixture.nowhere [GUEST] WORKSPACE None (Some "ws2") None =
    Returns false.
Proof.
  assert ("ws2" ≠ "") as Hws by discriminate.
  split.
  - rewrite (fetchUserWorkspaceInfo_then_allowPermissions Fixture.online
               "ws2" Fixture.alice_in_ws1 Fixture.session Fixture.nowhere
               [ADMIN; MEMBER] None None eq_refl Hws eq_refl).
    reflexivity.
  - rewrite (fetchUserWorkspaceInfo_then_allowPermissions Fixture.online
               "ws2" Fixture.alice_in_ws1 Fixture.session Fixture.nowhere
               [GUEST] None None eq_refl Hws eq_refl).
    reflexivity.
Defined.

Lemma leaveWorkspace_then_allowPermissions_witness :
  allowPermissions (error := string) Fixture.cached Fixture.at_ws1_p1
    [MEMBER] PROJECT None (Some "ws1") None = Returns true ∧
  allowPermissions (error := string)
    (store (leaveWorkspace Fixture.online "ws1" Fixture.session).1)
    Fixture.at_ws1_p1 [MEMBER] PROJECT None (Some "ws1") None =
    Returns false.
Proof.
  split; [reflexivity|].
  apply leaveWorkspace_then_allowPermissions;
    [reflexivity | discriminate | reflexivity].
Defined.


Lemma routerFilterParams_calls_witness :
  ∃ update,
    routerFilterParams Scenario.filters Scenario.workspaceSlug
      Scenario.globalViewId Scenario.routeFilters = Some update ∧
    update_workspaceSlug update = "ws1" ∧ update_viewId update = "assigned".
Proof.
  destruct (routerFilterParams_calls Scenario.filters Scenario.workspaceSlug
              Scenario.globalViewId Scenario.routeFilters)
    as [[_ Hcalled] Hfor].
  destruct Hcalled as [update Hupdate].
  { exists (QueryString "ws1"), (QueryString "assigned").
    split; [reflexivity|]. split; [reflexivity|].
    split; [reflexivity|]. split; [reflexivity|].
    split; [apply includes_string_elem_of; reflexivity|].
    intros Hempty.
    assert (Scenario.routeFilters !! "page" = None) as Hpage
      by (rewrite Hempty; apply lookup_empty).
    discriminate Hpage. }
  exists update. split; [exact Hupdate|].
  destruct (Hfor update Hupdate) as [Hslug Hview].
  split; [by injection Hslug | by injection Hview].
Defined.

Lemma routerFilterParams_filters_witness :
  ∃ update,
    routerFilterParams Scenario.filters Scenario.workspaceSlug
      Scenario.globalViewId Scenario.routeFilters = Some update ∧
    update_filters update !! "priority" = Some ["urgent"; "high"] ∧
    update_filters update !! "state" = None ∧
    update_filters update !! "page" = None.
Proof.
  eexists. split; [reflexivity|].
  rewrite !(routerFilterParams_filters Scenario.filters
              Scenario.workspaceSlug Scenario.globalViewId
              Scenario.routeFilters _ _ eq_refl).
  split; [reflexivity|]. split; reflexivity.
Defined.

Lemma routerFilterParams_round_trip_witness :
  ∃ update,
    routerFilterParams Scenario.filters Scenario.workspaceSlug
      Scenario.globalViewId Scenario.routeFilters = Some update ∧
    update_filters update !! "labels" = Some ["bug"; "ui"].
Proof.
  eexists. split; [reflexivity|].
  destruct (routerFilterParams_round_trip Scenario.filters
              Scenario.workspaceSlug Scenario.globalViewId
              Scenario.routeFilters _ "labels" eq_refl) as [_ Harray].
  apply Harray.
  - reflexivity.
  - apply includes_string_elem_of. reflexivity.
  - discriminate.
  - discriminate.
  - repeat constructor; discriminate.
Defined.

